(** * Chat client: connection handling, conversation log and session

    A shallow embedding of the browser chat client of this repository:

    - [App] (the main chat client: [connectWebSocket], the socket callbacks,
      [addMessage], [handleSubmit]);
    - [ChatInterface] (the Material-UI chat component: [ws.onmessage],
      [handleSend], [handleClearChat]);
    - [Login] (the sign-in form's [handleSubmit]);
    - the [useAuth] hook, whose implementation is not part of the sources and
      is modelled from the specification.

    React state is a record, the browser (sockets, timers, console, durable
    storage) is a second record, and every handler is a function in a small
    state-and-exception monad over the pair of the two. *)

From Stdlib Require Import ZArith NArith List String Ascii Bool Lia DecimalString.
From stdpp Require Import base option list strings gmap.
Import ListNotations.

Set Warnings "-register-all".

Local Open Scope N_scope.

(* ===================================================================== *)
(** * JavaScript values *)
(* ===================================================================== *)

(** A JavaScript string is a sequence of UTF-16 code units. *)
Abbreviation jsstring := (list N).

(** Literals of the source, which are all ASCII. *)
Definition js (s : string) : jsstring :=
  map N_of_ascii (list_ascii_of_string s).

(** The same between quotation marks (code unit 34), for writing frames. *)
Definition quoted (s : string) : jsstring := 34 :: js s ++ [34].

Arguments js : simpl never.
Arguments quoted : simpl never.

(** A number as [JSON.parse] reads it: sign, decimal mantissa and decimal
    exponent, that is (-1)^negative * mantissa * 10^exp10, before rounding to
    a double. *)
Record JsNumber := mkNumber {
  negative : bool;
  mantissa : N;
  exp10 : Z
}.

Inductive JsValue :=
| JsUndefined
| JsNull
| JsBool (b : bool)
| JsNum (n : JsNumber)
| JsStr (s : jsstring)
| JsArr (elems : list JsValue)
| JsObj (props : list (jsstring * JsValue)).

(** Modelled from the spec: the taxonomy of the errors of [login], which
    belongs to the [useAuth] hook; the hook is not among the sources. *)
Inductive LoginError :=
| InvalidCredentials
| NetworkUnavailable
| ServerError.

(** What a handler can throw. *)
Inductive JsError :=
| SyntaxError                       (* JSON.parse *)
| TypeError                         (* a property read on null *)
| InvalidStateError                 (* send on a connecting socket *)
| LoginFailed (reason : LoginError) (* a rejected login *).

(** The double nearest to a decimal is zero exactly when the decimal is at
    most half the least subnormal, 2^-1075 (the tie rounds to even, zero). *)
Definition number_is_zero (n : JsNumber) : bool :=
  if (0 <=? exp10 n)%Z then mantissa n =? 0
  else (Z.of_N (mantissa n) * 2 ^ 1075 <=? 10 ^ (- exp10 n))%Z.

(** ToBoolean. *)
Definition truthy (v : JsValue) : bool :=
  match v with
  | JsUndefined | JsNull => false
  | JsBool b => b
  | JsNum n => negb (number_is_zero n)
  | JsStr s => match s with [] => false | _ => true end
  | JsArr _ | JsObj _ => true
  end.

(** The last definition of a key wins, as in an object literal read by
    [JSON.parse]. *)
Fixpoint own_property (key : jsstring) (props : list (jsstring * JsValue))
  : option JsValue :=
  match props with
  | [] => None
  | (k, v) :: rest =>
      match own_property key rest with
      | Some v' => Some v'
      | None => if decide (k = key) then Some v else None
      end
  end.

(** Property read [v.key] for a key that no prototype defines ([response],
    [message], [timestamp]): a [TypeError] on [null] and [undefined],
    [undefined] on primitives, arrays and objects without the key. *)
Definition get_property (v : JsValue) (key : jsstring) : JsError + JsValue :=
  match v with
  | JsUndefined | JsNull => inl TypeError
  | JsObj props =>
      inr (match own_property key props with Some x => x | None => JsUndefined end)
  | _ => inr JsUndefined
  end.

(** [v.key], with [undefined] where the read throws. *)
Definition field (v : JsValue) (key : string) : JsValue :=
  match get_property v (js key) with
  | inr x => x
  | inl _ => JsUndefined
  end.

(** [L'] is [L], or [L] with one entry added at its end. *)
Definition extends {A} (L L' : list A) : Prop :=
  L' = L \/ exists m, L' = L ++ [m].

(** [String.prototype.trim]: white space and line terminators. *)
Definition is_js_space (c : N) : bool :=
  ((9 <=? c) && (c <=? 13)) || (c =? 32) || (c =? 160) || (c =? 5760)
  || ((8192 <=? c) && (c <=? 8202)) || (c =? 8232) || (c =? 8233)
  || (c =? 8239) || (c =? 8287) || (c =? 12288) || (c =? 65279).

Fixpoint trim_start (s : jsstring) : jsstring :=
  match s with
  | c :: rest => if is_js_space c then trim_start rest else s
  | [] => []
  end.

Definition trim (s : jsstring) : jsstring :=
  rev (trim_start (rev (trim_start s))).

(** [n.toString()] for a non-negative integer. *)
Definition toString (n : N) : jsstring :=
  js (NilZero.string_of_uint (N.to_uint n)).

(** [!s] for a string [s]. *)
Definition is_empty (s : jsstring) : bool :=
  match s with [] => true | _ => false end.

(* ===================================================================== *)
(** * JSON.parse *)
(* ===================================================================== *)

Module Json.

Definition is_ws (c : N) : bool :=
  (c =? 9) || (c =? 10) || (c =? 13) || (c =? 32).

Fixpoint skip_ws (s : jsstring) : jsstring :=
  match s with
  | c :: rest => if is_ws c then skip_ws rest else s
  | [] => []
  end.

Definition is_digit (c : N) : bool := (48 <=? c) && (c <=? 57).

(** Reads a maximal run of digits: its value on top of [acc], how many were
    read, and the rest. *)
Fixpoint digits (s : jsstring) (acc : N) (count : nat) : N * nat * jsstring :=
  match s with
  | c :: rest =>
      if is_digit c then digits rest (10 * acc + (c - 48)) (S count)
      else (acc, count, s)
  | [] => (acc, count, [])
  end.

Definition hex_digit (c : N) : option N :=
  if is_digit c then Some (c - 48)
  else if (97 <=? c) && (c <=? 102) then Some (c - 87)
  else if (65 <=? c) && (c <=? 70) then Some (c - 55)
  else None.

Definition escape (c : N) : option N :=
  if c =? 34 then Some 34          (* quotation mark *)
  else if c =? 92 then Some 92     (* reverse solidus *)
  else if c =? 47 then Some 47     (* solidus *)
  else if c =? 98 then Some 8      (* b: backspace *)
  else if c =? 102 then Some 12    (* f: form feed *)
  else if c =? 110 then Some 10    (* n: line feed *)
  else if c =? 114 then Some 13    (* r: carriage return *)
  else if c =? 116 then Some 9     (* t: tab *)
  else None.

(** The characters of a string literal after its opening quote. *)
Fixpoint string_body (s : jsstring) (acc : jsstring) : option (jsstring * jsstring) :=
  match s with
  | [] => None
  | c :: rest =>
      if c =? 34 then Some (rev acc, rest)
      else if c <? 32 then None
      else if c =? 92 then
        match rest with
        | [] => None
        | e :: rest1 =>
            if e =? 117 then
              match rest1 with
              | h1 :: h2 :: h3 :: h4 :: rest2 =>
                  match hex_digit h1, hex_digit h2, hex_digit h3, hex_digit h4 with
                  | Some d1, Some d2, Some d3, Some d4 =>
                      string_body rest2 (((d1 * 16 + d2) * 16 + d3) * 16 + d4 :: acc)
                  | _, _, _, _ => None
                  end
              | _ => None
              end
            else
              match escape e with
              | Some u => string_body rest1 (u :: acc)
              | None => None
              end
        end
      else string_body rest (c :: acc)
  end.

(** A number literal whose sign has been read. *)
Definition number (neg : bool) (s : jsstring) : option (JsNumber * jsstring) :=
  let int_part :=
    match s with
    | c :: rest =>
        if c =? 48 then Some (0, rest)
        else if is_digit c then
          let '(m, _, rest') := digits s 0 0 in Some (m, rest')
        else None
    | [] => None
    end in
  match int_part with
  | None => None
  | Some (m, rest) =>
      let frac :=
        match rest with
        | c :: rest1 =>
            if c =? 46 then
              let '(m', k, rest2) := digits rest1 m 0 in
              match k with
              | O => None
              | _ => Some (m', Z.of_nat k, rest2)
              end
            else Some (m, 0%Z, rest)
        | [] => Some (m, 0%Z, [])
        end in
      match frac with
      | None => None
      | Some (m', k, rest2) =>
          let exponent (positive : bool) (r : jsstring) :=
            let '(e, n, r') := digits r 0 0 in
            match n with
            | O => None
            | _ =>
                let e := Z.of_N e in
                Some (mkNumber neg m' ((if positive then e else - e) - k)%Z, r')
            end in
          match rest2 with
          | c :: rest3 =>
              if (c =? 101) || (c =? 69) then
                match rest3 with
                | sg :: rest4 =>
                    if sg =? 43 then exponent true rest4
                    else if sg =? 45 then exponent false rest4
                    else exponent true rest3
                | [] => None
                end
              else Some (mkNumber neg m' (- k)%Z, rest2)
          | [] => Some (mkNumber neg m' (- k)%Z, [])
          end
      end
  end.

(** [literal word s] reads the keyword [word] at the head of [s]. *)
Fixpoint literal (word s : jsstring) : option jsstring :=
  match word, s with
  | [], _ => Some s
  | w :: word', c :: rest => if w =? c then literal word' rest else None
  | _ :: _, [] => None
  end.

(** Recursive descent.  Between two calls of the same function at least one
    character is consumed, and at most two of the three functions are entered
    for it, so the [2 * length s + 2] units of fuel that [parse] hands out
    never run out ([parse_fuel_enough] below). *)
Fixpoint value (fuel : nat) (s : jsstring) {struct fuel} : option (JsValue * jsstring) :=
  match fuel with
  | O => None
  | S fuel' =>
      match skip_ws s with
      | [] => None
      | c :: rest =>
          if c =? 123 then
            match skip_ws rest with
            | c' :: rest' =>
                if c' =? 125 then Some (JsObj [], rest')
                else members fuel' rest []
            | [] => None
            end
          else if c =? 91 then
            match skip_ws rest with
            | c' :: rest' =>
                if c' =? 93 then Some (JsArr [], rest')
                else elements fuel' rest []
            | [] => None
            end
          else if c =? 34 then
            match string_body rest [] with
            | Some (str, rest') => Some (JsStr str, rest')
            | None => None
            end
          else if c =? 45 then
            match number true rest with
            | Some (n, rest') => Some (JsNum n, rest')
            | None => None
            end
          else if is_digit c then
            match number false (c :: rest) with
            | Some (n, rest') => Some (JsNum n, rest')
            | None => None
            end
          else
            match literal (js "true") (c :: rest) with
            | Some rest' => Some (JsBool true, rest')
            | None =>
                match literal (js "false") (c :: rest) with
                | Some rest' => Some (JsBool false, rest')
                | None =>
                    match literal (js "null") (c :: rest) with
                    | Some rest' => Some (JsNull, rest')
                    | None => None
                    end
                end
            end
      end
  end
with elements (fuel : nat) (s : jsstring) (acc : list JsValue) {struct fuel}
  : option (JsValue * jsstring) :=
  match fuel with
  | O => None
  | S fuel' =>
      match value fuel' s with
      | None => None
      | Some (v, rest) =>
          match skip_ws rest with
          | c :: rest' =>
              if c =? 44 then elements fuel' rest' (v :: acc)
              else if c =? 93 then Some (JsArr (rev (v :: acc)), rest')
              else None
          | [] => None
          end
      end
  end
with members (fuel : nat) (s : jsstring) (acc : list (jsstring * JsValue)) {struct fuel}
  : option (JsValue * jsstring) :=
  match fuel with
  | O => None
  | S fuel' =>
      match skip_ws s with
      | c :: rest =>
          if c =? 34 then
            match string_body rest [] with
            | None => None
            | Some (key, rest1) =>
                match skip_ws rest1 with
                | c1 :: rest2 =>
                    if c1 =? 58 then
                      match value fuel' rest2 with
                      | None => None
                      | Some (v, rest3) =>
                          match skip_ws rest3 with
                          | c3 :: rest4 =>
                              if c3 =? 44 then members fuel' rest4 ((key, v) :: acc)
                              else if c3 =? 125 then
                                Some (JsObj (rev ((key, v) :: acc)), rest4)
                              else None
                          | [] => None
                          end
                      end
                    else None
                | [] => None
                end
            end
          else None
      | [] => None
      end
  end.

(** [JSON.parse(text)]: [None] stands for the [SyntaxError] it throws. *)
Definition parse (text : jsstring) : option JsValue :=
  match value (2 * length text + 2) text with
  | Some (v, rest) =>
      match skip_ws rest with
      | [] => Some v
      | _ :: _ => None
      end
  | None => None
  end.

End Json.

(* ===================================================================== *)
(** * The browser *)
(* ===================================================================== *)

Inductive ReadyState := CONNECTING | OPEN | CLOSING | CLOSED.

(** A [WebSocket] object: where it connects to, its [readyState], and the
    frames handed to [send] while it was open.  The source only ever sends
    [JSON.stringify(object)]; the frame is kept as that object. *)
Record Socket := mkSocket {
  url : string;
  readyState : ReadyState;
  sent : list JsValue
}.

(** What a pending [setTimeout] will run. *)
Inductive Callback :=
| Reconnect          (* connectWebSocket *)
| ScrollToBottom.    (* messagesEndRef.current?.scrollIntoView(...) *)

Record Browser := mkBrowser {
  sockets : list Socket;                (* every WebSocket created so far *)
  timeouts : list (Callback * N);       (* pending timers: callback, delay in ms *)
  console : list string;                (* console.log / console.error lines *)
  localStorage : gmap string jsstring   (* durable storage *)
}.

Definition emptyBrowser : Browser := mkBrowser [] [] [] ∅.

(* ===================================================================== *)
(** * Handlers: state and exceptions *)
(* ===================================================================== *)

Inductive Completion (A : Type) :=
| Normal (a : A)
| Throw (e : JsError).
Arguments Normal {A} a.
Arguments Throw {A} e.

Section Runtime.
(** [C] is the state of the component the handler belongs to. *)
Context {C : Type}.

Definition Handler (A : Type) : Type := C * Browser -> Completion A * (C * Browser).

Definition ret {A} (a : A) : Handler A := fun w => (Normal a, w).

Definition throw {A} (e : JsError) : Handler A := fun w => (Throw e, w).

Definition bind {A B} (m : Handler A) (k : A -> Handler B) : Handler B :=
  fun w =>
    match m w with
    | (Normal a, w') => k a w'
    | (Throw e, w') => (Throw e, w')
    end.

(** [try { body } catch (error) { handler }] *)
Definition try_catch {A} (body : Handler A) (handler : JsError -> Handler A) : Handler A :=
  fun w =>
    match body w with
    | (Normal a, w') => (Normal a, w')
    | (Throw e, w') => handler e w'
    end.

(** Reading the component state, as the closure of the current render. *)
Definition render : Handler C := fun w => (Normal (fst w), w).

(** A state setter of [useState] (or an assignment to a ref). *)
Definition setState (f : C -> C) : Handler unit :=
  fun w => (Normal tt, (f (fst w), snd w)).

Definition browser : Handler Browser := fun w => (Normal (snd w), w).

Definition setBrowser (f : Browser -> Browser) : Handler unit :=
  fun w => (Normal tt, (fst w, f (snd w))).

Definition console_log (line : string) : Handler unit :=
  setBrowser (fun b =>
    mkBrowser (sockets b) (timeouts b) (console b ++ [line]) (localStorage b)).

Definition setTimeout (cb : Callback) (delay : N) : Handler unit :=
  setBrowser (fun b =>
    mkBrowser (sockets b) (timeouts b ++ [(cb, delay)]) (console b) (localStorage b)).

Definition setSockets (f : list Socket -> list Socket) : Handler unit :=
  setBrowser (fun b =>
    mkBrowser (f (sockets b)) (timeouts b) (console b) (localStorage b)).

(** [localStorage.setItem(key, v)] and [localStorage.removeItem(key)] *)
Definition setItem (key : string) (v : jsstring) : Handler unit :=
  setBrowser (fun b =>
    mkBrowser (sockets b) (timeouts b) (console b) (<[key := v]> (localStorage b))).

Definition removeItem (key : string) : Handler unit :=
  setBrowser (fun b =>
    mkBrowser (sockets b) (timeouts b) (console b) (delete key (localStorage b))).

(** [new WebSocket(url)]: a fresh socket, still connecting; its handle is
    its index. *)
Definition newWebSocket (u : string) : Handler nat :=
  fun w =>
    let b := snd w in
    (Normal (length (sockets b)),
     (fst w, mkBrowser (sockets b ++ [mkSocket u CONNECTING []])
                       (timeouts b) (console b) (localStorage b))).

(** [ws.send(frame)]: an [InvalidStateError] while connecting, queued for
    transmission when open, silently discarded when closing or closed. *)
Definition ws_send (ws : nat) (frame : JsValue) : Handler unit :=
  fun w =>
    match sockets (snd w) !! ws with
    | Some sock =>
        match readyState sock with
        | CONNECTING => (Throw InvalidStateError, w)
        | OPEN =>
            setSockets
              (fun l => <[ws := mkSocket (url sock) OPEN (sent sock ++ [frame])]> l) w
        | CLOSING | CLOSED => (Normal tt, w)
        end
    | None => (Normal tt, w)
    end.

(** The transport changes a socket's [readyState]: to open or closed in
    the task that then runs the callback, to closing in a task of its own
    when the closing handshake starts. *)
Definition transport (ws : nat) (st : ReadyState) : Handler unit :=
  setSockets (fun l =>
    match l !! ws with
    | Some sock => <[ws := mkSocket (url sock) st (sent sock)]> l
    | None => l
    end).

(** [JSON.parse(text)] *)
Definition JSON_parse (text : jsstring) : Handler JsValue :=
  match Json.parse text with
  | Some v => ret v
  | None => throw SyntaxError
  end.

(** [v.key] *)
Definition property (v : JsValue) (key : string) : Handler JsValue :=
  match get_property v (js key) with
  | inr x => ret x
  | inl e => throw e
  end.

(** [try { body } finally { cleanup }] *)
Definition try_finally {A} (body : Handler A) (cleanup : Handler unit) : Handler A :=
  fun w =>
    match body w with
    | (r, w') =>
        match cleanup w' with
        | (Normal _, w'') => (r, w'')
        | (Throw e, w'') => (Throw e, w'')
        end
    end.

Definition when (c : bool) (m : Handler unit) : Handler unit :=
  if c then m else ret tt.

(** [ref.send(frame)] for a reference that may be [null]. *)
Definition ref_send (ref : option nat) (frame : JsValue) : Handler unit :=
  match ref with
  | Some ws => ws_send ws frame
  | None => throw TypeError
  end.
End Runtime.

Arguments Handler : clear implicits.

(** A handler of one component run where a second component's state is
    around: it cannot see or touch the other state. *)
Definition in_fst {C D A} (m : Handler C A) : Handler (C * D) A :=
  fun w =>
    match m (fst (fst w), snd w) with
    | (r, (c', b')) => (r, ((c', snd (fst w)), b'))
    end.

Definition in_snd {C D A} (m : Handler D A) : Handler (C * D) A :=
  fun w =>
    match m (snd (fst w), snd w) with
    | (r, (d', b')) => (r, ((fst (fst w), d'), b'))
    end.

Declare Scope handler_scope.
Delimit Scope handler_scope with handler.
Notation "'let*' x := m 'in' k" := (bind m (fun x => k))
  (at level 10, x name, m at level 100, k at level 200,
   format "'[v' 'let*'  x  :=  m  'in' '/' k ']'") : handler_scope.
Notation "m >> k" := (bind m (fun _ => k))
  (at level 100, k at level 200, right associativity,
   format "'[v' m  >> '/' k ']'") : handler_scope.

Definition readyStateOf (b : Browser) (ws : nat) : option ReadyState :=
  readyState <$> sockets b !! ws.

(** What the transport does to a [WebSocket]: the four events, which run
    the callback of their name, and the start of the closing handshake,
    which runs none. *)
Inductive SocketEvent :=
| open
| message (data : jsstring)     (* a text frame: event.data *)
| error
| close
| closing.                      (* the peer starts the closing handshake *)

(** Whether the transport can do this to socket [ws]: [open] once, while
    connecting; [message] while open; [error] and [close] until the socket
    is closed; the closing handshake can start once the socket is open, and
    the close event follows in a later task. *)
Definition can_fire (b : Browser) (ws : nat) (e : SocketEvent) : bool :=
  match e, readyStateOf b ws with
  | open, Some CONNECTING => true
  | message _, Some OPEN => true
  | (error | close), Some (CONNECTING | OPEN | CLOSING) => true
  | closing, Some OPEN => true
  | _, _ => false
  end.


Local Open Scope handler_scope.

(* ===================================================================== *)
(** * App: the main chat client *)
(* ===================================================================== *)

Module App.

(** [interface Message] *)
Record Message := mkMessage {
  text : JsValue;      (* declared a string; whatever the caller passes *)
  isUser : bool;
  timestamp : N        (* new Date(), in ms *)
}.

(** The [useState] cells and the [wsRef] ref of [App]. *)
Record State := mkState {
  messages : list Message;
  input : jsstring;
  isConnected : bool;
  isLoading : bool;
  wsRef : option nat
}.

Definition initial : State := mkState [] [] false false None.

Definition setMessages (f : list Message -> list Message) : Handler State unit :=
  setState (fun s =>
    mkState (f (messages s)) (input s) (isConnected s) (isLoading s) (wsRef s)).

Definition setInput (v : jsstring) : Handler State unit :=
  setState (fun s =>
    mkState (messages s) v (isConnected s) (isLoading s) (wsRef s)).

Definition setIsConnected (v : bool) : Handler State unit :=
  setState (fun s =>
    mkState (messages s) (input s) v (isLoading s) (wsRef s)).

Definition setIsLoading (v : bool) : Handler State unit :=
  setState (fun s =>
    mkState (messages s) (input s) (isConnected s) v (wsRef s)).

Definition setWsRef (v : option nat) : Handler State unit :=
  setState (fun s =>
    mkState (messages s) (input s) (isConnected s) (isLoading s) v).

(** What the header shows: [isConnected ? 'Connected' : 'Disconnected']. *)
Definition connectionStatus (s : State) : string :=
  if isConnected s then "Connected" else "Disconnected".

(** [addMessage(text, isUser)], run at time [now]. *)
Definition addMessage (now : N) (text : JsValue) (isUser : bool) : Handler State unit :=
  setMessages (fun prev => prev ++ [mkMessage text isUser now]) >>
  setTimeout ScrollToBottom 100.

(** [connectWebSocket()].  The four callbacks it installs on the new socket
    are the definitions below; [dispatch] runs them. *)
Definition connectWebSocket : Handler State unit :=
  let* ws := newWebSocket "ws://localhost:7860/ws/chat" in
  setWsRef (Some ws).

Definition onopen : Handler State unit :=
  console_log "Connected to WebSocket" >>
  setIsConnected true.

Definition onmessage (now : N) (event_data : jsstring) : Handler State unit :=
  let* data := JSON_parse event_data in
  let* response := property data "response" in
  when (truthy response) (addMessage now response false) >>
  setIsLoading false.

Definition onclose : Handler State unit :=
  console_log "Disconnected from WebSocket" >>
  setIsConnected false >>
  (* Attempt to reconnect after 3 seconds *)
  setTimeout Reconnect 3000.

Definition onerror : Handler State unit :=
  console_log "WebSocket error:" >>
  setIsConnected false.

(** [handleSubmit(e)], run at time [now]. *)
Definition handleSubmit (now : N) : Handler State unit :=
  let* s := render in
  if is_empty (trim (input s)) || negb (bool_decide (is_Some (wsRef s)))
     || negb (isConnected s)
  then ret tt
  else
    addMessage now (JsStr (input s)) true >>
    ref_send (wsRef s) (JsObj [(js "message", JsStr (input s));
                               (js "user_id", JsStr (js "default"))]) >>
    setInput [] >>
    setIsLoading true.

(** What can happen to a mounted [App].  The cleanup of the effect, which
    closes the socket when the component is unmounted, ends this life span
    and is not part of it. *)
Inductive Event :=
| Mount                                (* the effect of the first render *)
| Socket (ws : nat) (e : SocketEvent)  (* an event of a socket it created *)
| TimerFired (k : nat)                 (* the k-th pending timer expires *)
| Change (value : jsstring)            (* onChange of the text input *)
| Submit.                              (* onSubmit of the form *)

(** Whether the browser can deliver the event in this state. *)
Definition enabled (e : Event) (w : State * Browser) : bool :=
  match e with
  | Mount => bool_decide (wsRef (fst w) = None)
  | Socket ws e => can_fire (snd w) ws e
  | TimerFired k => bool_decide (is_Some (timeouts (snd w) !! k))
  | Change _ | Submit => true
  end.

(** The task the event loop runs for an event that occurs at time [now]. *)
Definition dispatch (now : N) (e : Event) : Handler State unit :=
  match e with
  | Mount => connectWebSocket
  | Socket ws open => transport ws OPEN >> onopen
  | Socket _ (message data) => onmessage now data
  | Socket _ error => onerror
  | Socket ws close => transport ws CLOSED >> onclose
  | Socket ws closing => transport ws CLOSING
  | TimerFired k =>
      let* b := browser in
      setBrowser (fun b =>
        mkBrowser (sockets b) (delete k (timeouts b)) (console b) (localStorage b)) >>
      match timeouts b !! k with
      | Some (Reconnect, _) => connectWebSocket
      | _ => ret tt
      end
  | Change value => setInput value
  | Submit => handleSubmit now
  end.

(** One turn of the event loop.  An exception that escapes a callback is
    reported by the browser and the page lives on, with the updates made
    before the exception. *)
Definition step (w : State * Browser) (ev : N * Event) : State * Browser :=
  if enabled (snd ev) w then snd (dispatch (fst ev) (snd ev) w) else w.

Definition run (w : State * Browser) (evs : list (N * Event)) : State * Browser :=
  fold_left step evs w.

End App.

(* ===================================================================== *)
(** * ChatInterface: the Material-UI chat component *)
(* ===================================================================== *)

Module ChatInterface.

Inductive JsDate :=
| DateNow (now : N)          (* new Date() *)
| DateOf (v : JsValue).      (* new Date(v), possibly an invalid date *)

(** [interface Message] *)
Record Message := mkMessage {
  id : jsstring;
  content : JsValue;
  isUser : bool;
  timestamp : JsDate
}.

Record State := mkState {
  messages : list Message;
  input : jsstring;
  isLoading : bool;
  socket : option nat
}.

Definition initial : State := mkState [] [] false None.

Definition setMessages (f : list Message -> list Message) : Handler State unit :=
  setState (fun s => mkState (f (messages s)) (input s) (isLoading s) (socket s)).

Definition setInput (v : jsstring) : Handler State unit :=
  setState (fun s => mkState (messages s) v (isLoading s) (socket s)).

Definition setIsLoading (v : bool) : Handler State unit :=
  setState (fun s => mkState (messages s) (input s) v (socket s)).

Definition setSocket (v : option nat) : Handler State unit :=
  setState (fun s => mkState (messages s) (input s) (isLoading s) v).

(** The effect of the first render: it creates the socket, installs the
    four callbacks below and stores the socket in the state. *)
Definition connect : Handler State unit :=
  let* ws := newWebSocket "ws://localhost:8000/ws/chat" in
  setSocket (Some ws).

Definition onopen : Handler State unit :=
  console_log "Connected to WebSocket server".

(** [ws.onmessage].  The entry is built inside the updater passed to
    [setMessages], which React runs when it processes the update: [now] is
    what [Date.now()] reads then, not when the frame arrived; and when
    [data] is [null] the property reads raise the [TypeError] from React's
    processing of the update rather than from the callback, and neither
    update is committed. *)
Definition onmessage (now : N) (event_data : jsstring) : Handler State unit :=
  let* data := JSON_parse event_data in
  let* message := property data "message" in
  let* timestamp := property data "timestamp" in
  setMessages (fun prev =>
    prev ++ [mkMessage (toString now) message false (DateOf timestamp)]) >>
  setIsLoading false.

Definition onerror : Handler State unit :=
  console_log "WebSocket error:" >>
  setIsLoading false.

Definition onclose : Handler State unit :=
  console_log "Disconnected from WebSocket server".

(** [handleSend()], run at time [now]. *)
Definition handleSend (now : N) : Handler State unit :=
  let* s := render in
  if is_empty (trim (input s)) || negb (bool_decide (is_Some (socket s)))
     || isLoading s
  then ret tt
  else
    let message := mkMessage (toString now) (JsStr (input s)) true (DateNow now) in
    setMessages (fun prev => prev ++ [message]) >>
    setInput [] >>
    setIsLoading true >>
    try_catch
      (ref_send (socket s) (JsObj [(js "text", JsStr (input s))]))
      (fun _ =>
         console_log "Error sending message:" >>
         setIsLoading false).

(** [handleClearChat()] *)
Definition handleClearChat : Handler State unit :=
  setMessages (fun _ => []).

(** What can happen to a mounted [ChatInterface]; as for [App], the cleanup
    on unmount is not part of it. *)
Inductive Event :=
| Mount
| Socket (ws : nat) (e : SocketEvent)
| Change (value : jsstring)
| Send                       (* the send button, or Enter in the text field *)
| ClearChat.                 (* the clear button *)

Definition enabled (e : Event) (w : State * Browser) : bool :=
  match e with
  | Mount => bool_decide (socket (fst w) = None)
  | Socket ws e => can_fire (snd w) ws e
  | Change _ | Send | ClearChat => true
  end.

Definition dispatch (now : N) (e : Event) : Handler State unit :=
  match e with
  | Mount => connect
  | Socket ws open => transport ws OPEN >> onopen
  | Socket _ (message data) => onmessage now data
  | Socket _ error => onerror
  | Socket ws close => transport ws CLOSED >> onclose
  | Socket ws closing => transport ws CLOSING
  | Change value => setInput value
  | Send => handleSend now
  | ClearChat => handleClearChat
  end.

Definition step (w : State * Browser) (ev : N * Event) : State * Browser :=
  if enabled (snd ev) w then snd (dispatch (fst ev) (snd ev) w) else w.

Definition run (w : State * Browser) (evs : list (N * Event)) : State * Browser :=
  fold_left step evs w.

End ChatInterface.

(* ===================================================================== *)
(** * useAuth: the session manager *)
(* ===================================================================== *)

Module Auth.

(** Modelled from the spec: the session credentials ([token], optional
    [expiresAt], [userId]) that the [useAuth] hook owns; the hook is not
    among the sources. *)
Record SessionCredentials := mkCredentials {
  token : jsstring;
  expiresAt : option N;
  userId : jsstring
}.

(** Modelled from the spec: the in-memory state of the [useAuth] hook,
    zero or one [SessionCredentials]. *)
Record State := mkState {
  credentials : option SessionCredentials
}.

Definition initial : State := mkState None.

(** Modelled from the spec: the answers of the login endpoint, an external
    collaborator that exchanges credentials for a token. *)
Inductive LoginReply :=
| Granted (c : SessionCredentials)   (* a token was issued *)
| Rejected                           (* the credentials were not accepted *)
| Unreachable                        (* the request got no answer *)
| Faulted.                           (* the backend answered with an error *)

(** The durable-storage key that holds the session token, as the hook's
    tests read it: [localStorage.getItem('token')]. *)
Definition token_key : string := "token".

(** Modelled from the spec: [login(username, password)] of the [useAuth]
    hook, which is not among the sources.  It exchanges credentials for a
    token via the backend (whose answer is [reply]); on success it stores
    the credentials in memory and in durable storage and returns the
    identity; on failure it raises a taxonomized error and stores nothing. *)
Definition login (username password : jsstring) (reply : LoginReply)
  : Handler State jsstring :=
  match reply with
  | Granted c =>
      setState (fun _ => mkState (Some c)) >>
      setItem token_key (token c) >>
      ret (userId c)
  | Rejected => throw (LoginFailed InvalidCredentials)
  | Unreachable => throw (LoginFailed NetworkUnavailable)
  | Faulted => throw (LoginFailed ServerError)
  end.

(** Modelled from the spec: [logout()] of the [useAuth] hook, which is not
    among the sources.  It clears the credentials from memory and from
    durable storage, synchronously. *)
Definition logout : Handler State unit :=
  setState (fun _ => mkState None) >>
  removeItem token_key.

(** No credentials in memory and no token in durable storage. *)
Definition absent (a : State) (b : Browser) : Prop :=
  credentials a = None /\ localStorage b !! token_key = None.

End Auth.

(* ===================================================================== *)
(** * Login: the sign-in form *)
(* ===================================================================== *)

Module Login.

Record State := mkState {
  username : jsstring;
  password : jsstring;
  error : option string;
  isLoading : bool
}.

Definition initial : State := mkState [] [] None false.

Definition setError (v : option string) : Handler State unit :=
  setState (fun s => mkState (username s) (password s) v (isLoading s)).

Definition setIsLoading (v : bool) : Handler State unit :=
  setState (fun s => mkState (username s) (password s) (error s) v).

(** [handleSubmit(e)]; [reply] is what the backend answers to the [login]
    it awaits.  The two halves of the handler, before and after the
    [await], are run in one go: a [login] that never settles is no case of
    this definition. *)
Definition handleSubmit (reply : Auth.LoginReply) : Handler (State * Auth.State) unit :=
  let* s := render in
  in_fst (setError None) >>
  in_fst (setIsLoading true) >>
  try_finally
    (try_catch
       (in_snd (Auth.login (username (fst s)) (password (fst s)) reply) >> ret tt)
       (fun _ => in_fst (setError (Some "Invalid username or password"))))
    (in_fst (setIsLoading false)).

End Login.

(* ===================================================================== *)
(** * The specification's words, for comparison *)
(* ===================================================================== *)

Module Spec.

(** The specification's back-off policy: min(baseDelay * 2^retryCount,
    maxDelay), in milliseconds. *)
Definition backoff (baseDelay maxDelay retryCount : N) : N :=
  N.min (baseDelay * 2 ^ retryCount) maxDelay.

(** [delay] is [nominal] jittered by at most 20% either way. *)
Definition jittered (nominal delay : N) : Prop :=
  8 * nominal <= 10 * delay /\ 10 * delay <= 12 * nominal.

Definition baseDelay : N := 1000.
Definition maxDelay : N := 30000.

(** [l] is a strict prefix of [l']. *)
Definition strict_prefix {A} (l l' : list A) : Prop :=
  exists x rest, l' = l ++ x :: rest.

End Spec.

(* ===================================================================== *)
(** * Concrete sessions *)
(* ===================================================================== *)

Module Example.

(** [App] after its first render: one socket, still connecting. *)
Definition mounted : App.State * Browser :=
  App.run (App.initial, emptyBrowser) [(0, App.Mount)].

(** ... and after that socket opened. *)
Definition connected : App.State * Browser :=
  App.run mounted [(1, App.Socket 0 open)].

(** ... the user typed Hi and submitted: a reply is awaited. *)
Definition awaiting : App.State * Browser :=
  App.run connected [(2, App.Change (js "Hi")); (3, App.Submit)].

(** The user typed Hi before the socket opened. *)
Definition typed_offline : App.State * Browser :=
  App.run mounted [(1, App.Change (js "Hi"))].

(** [ChatInterface] after its first render and the opening of its socket. *)
Definition chat_connected : ChatInterface.State * Browser :=
  ChatInterface.run (ChatInterface.initial, emptyBrowser)
    [(0, ChatInterface.Mount); (1, ChatInterface.Socket 0 open)].

(** A server envelope carrying an [originId], a [response] and a [message]. *)
Definition envelope : jsstring :=
  js "{" ++ quoted "originId" ++ js ": " ++ quoted "a1" ++ js ", "
  ++ quoted "response" ++ js ": " ++ quoted "Hello" ++ js ", "
  ++ quoted "message" ++ js ": " ++ quoted "Hello" ++ js "}".

(** A frame that is not JSON. *)
Definition garbage : jsstring := js "not json".

(** Well-formed frames without a reply. *)
Definition empty_object : jsstring := js "{}".
Definition null_frame : jsstring := js "null".

End Example.

(* ===================================================================== *)
(** * Derived notions *)
(* ===================================================================== *)

(** Whether a pending timer is a reconnection. *)
Definition is_reconnect (t : Callback * N) : bool :=
  match fst t with
  | Reconnect => true
  | ScrollToBottom => false
  end.

(** The number of reconnections that are scheduled. *)
Definition reconnects (b : Browser) : nat :=
  length (List.filter is_reconnect (timeouts b)).

(** The [readyState] of every socket, oldest first. *)
Definition readyStates (b : Browser) : list ReadyState :=
  readyState <$> sockets b.

(** What [App] keeps true of its sockets: before the first render there is
    none; afterwards [wsRef] is the newest socket and every older one is
    closed; a reconnection is pending exactly while the newest is closed
    too; and the client shows Connected only while the newest is open or
    closing. *)
Definition connection_inv (w : App.State * Browser) : Prop :=
  match App.wsRef (fst w) with
  | None =>
      sockets (snd w) = [] /\ reconnects (snd w) = 0%nat
      /\ App.isConnected (fst w) = false
  | Some ws =>
      exists newest,
        readyStates (snd w) = replicate ws CLOSED ++ [newest]
        /\ match newest with
           | CONNECTING =>
               reconnects (snd w) = 0%nat /\ App.isConnected (fst w) = false
           | OPEN | CLOSING => reconnects (snd w) = 0%nat
           | CLOSED =>
               reconnects (snd w) = 1%nat /\ App.isConnected (fst w) = false
           end
  end.

(** The connection states that [App] goes through, in the words of the
    specification. *)
Inductive ConnectionState := Disconnected | Connecting | Connected.

(** The connection state of [App], read off [connectWebSocket] and its
    callbacks: Connected from [onopen] until [onclose] or [onerror], that
    is while [isConnected]; before that, Connecting while the socket that
    [connectWebSocket] created last, [wsRef.current], is in its CONNECTING
    [readyState]; Disconnected otherwise. *)
Definition connectionState (w : App.State * Browser) : ConnectionState :=
  if App.isConnected (fst w) then Connected
  else
    match App.wsRef (fst w) with
    | Some ws =>
        match readyStateOf (snd w) ws with
        | Some CONNECTING => Connecting
        | _ => Disconnected
        end
    | None => Disconnected
    end.

(** What the form of [App] renders: the [disabled] attributes of the text
    input and of the Send button. *)
Definition App_inputDisabled (s : App.State) : bool :=
  negb (App.isConnected s) || App.isLoading s.

Definition App_sendDisabled (s : App.State) : bool :=
  negb (App.isConnected s) || App.isLoading s || is_empty (trim (App.input s)).

(** The [disabled] attribute of the Send button of [ChatInterface]. *)
Definition Chat_sendDisabled (s : ChatInterface.State) : bool :=
  is_empty (trim (ChatInterface.input s)) || ChatInterface.isLoading s.

(** [handleKeyPress(event)] of [ChatInterface]: Enter without Shift sends. *)
Definition Chat_handleKeyPress (key : jsstring) (shiftKey : bool) (now : N)
  : Handler ChatInterface.State unit :=
  if bool_decide (key = js "Enter") && negb shiftKey
  then ChatInterface.handleSend now
  else ret tt.

(** An entry of the log of [App] that shows something: a user entry holds a
    string that is not blank, a reply holds a truthy value. *)
Definition App_entry_shown (m : App.Message) : bool :=
  if App.isUser m then
    match App.text m with
    | JsStr s => negb (is_empty (trim s))
    | _ => false
    end
  else truthy (App.text m).

(** The number of frames handed to the sockets so far. *)
Definition frames_sent (b : Browser) : nat :=
  sum_list_with (fun s => length (sent s)) (sockets b).

(** The number of [message] and [error] events in a sequence of events of
    [ChatInterface]. *)
Definition is_answer (ev : N * ChatInterface.Event) : bool :=
  match snd ev with
  | ChatInterface.Socket _ (message _) | ChatInterface.Socket _ error => true
  | _ => false
  end.

Definition answers (evs : list (N * ChatInterface.Event)) : nat :=
  length (List.filter is_answer evs).

(** One, while [ChatInterface] awaits a reply. *)
Definition slack (w : ChatInterface.State * Browser) : nat :=
  if ChatInterface.isLoading (fst w) then 1 else 0.

(** [ChatInterface] is mounted, every socket is closed and a reply is
    awaited. *)
Definition hung (w : ChatInterface.State * Browser) : Prop :=
  ChatInterface.socket (fst w) <> None
  /\ Forall (fun s => readyState s = CLOSED) (sockets (snd w))
  /\ ChatInterface.isLoading (fst w) = true.

(** Before the first render [ChatInterface] has no socket; afterwards it
    has the one it created then. *)
Definition single_socket (w : ChatInterface.State * Browser) : Prop :=
  timeouts (snd w) = []
  /\ match ChatInterface.socket (fst w) with
     | None => sockets (snd w) = []
     | Some ws => ws = 0%nat /\ length (sockets (snd w)) = 1%nat
     end.

Module Scenario.

(** [App], connected, with only white space typed. *)
Definition blank_typed : App.State * Browser :=
  App.run Example.connected [(2, App.Change (js "   "))].

(** [App], with Hi typed after the peer started the closing handshake. *)
Definition typed_while_closing : App.State * Browser :=
  App.run Example.connected
    [(2, App.Socket 0 closing); (3, App.Change (js "Hi"))].

(** [ChatInterface], connected, with only white space typed. *)
Definition chat_blank_typed : ChatInterface.State * Browser :=
  ChatInterface.run Example.chat_connected [(2, ChatInterface.Change (js "   "))].

(** [ChatInterface] with Hi typed before its socket has opened. *)
Definition chat_typed_early : ChatInterface.State * Browser :=
  ChatInterface.run (ChatInterface.initial, emptyBrowser)
    [(0, ChatInterface.Mount); (1, ChatInterface.Change (js "Hi"))].

(** [ChatInterface], connected, with Hi typed. *)
Definition chat_typed : ChatInterface.State * Browser :=
  ChatInterface.run Example.chat_connected [(2, ChatInterface.Change (js "Hi"))].

(** The user sends Hi after the socket of [ChatInterface] has closed. *)
Definition sent_after_close : ChatInterface.State * Browser :=
  ChatInterface.run Example.chat_connected
    [(2, ChatInterface.Socket 0 close); (3, ChatInterface.Change (js "Hi"));
     (4, ChatInterface.Send)].

End Scenario.

(* ===================================================================== *)
(** * Running the handlers *)
(* ===================================================================== *)

(** Unfolds the monad and the browser primitives. *)
Ltac unfold_handler :=
  unfold JSON_parse, property, ref_send, when, console_log, setTimeout,
    transport, in_fst, in_snd, setItem, removeItem in *;
  unfold ws_send, newWebSocket, try_catch, try_finally in *;
  unfold setSockets in *;
  unfold setBrowser, setState, render, browser, bind, ret, throw in *.

Ltac unfold_app :=
  unfold App.step, App.dispatch, App.enabled, App.onopen, App.onmessage,
    App.onclose, App.onerror, App.handleSubmit, App.connectWebSocket,
    App.addMessage, App.setMessages, App.setInput, App.setIsConnected,
    App.setIsLoading, App.setWsRef in *.

Ltac unfold_chat :=
  unfold ChatInterface.step, ChatInterface.dispatch, ChatInterface.enabled,
    ChatInterface.onopen, ChatInterface.onmessage, ChatInterface.onclose,
    ChatInterface.onerror, ChatInterface.handleSend, ChatInterface.connect,
    ChatInterface.handleClearChat, ChatInterface.setMessages,
    ChatInterface.setInput, ChatInterface.setIsLoading,
    ChatInterface.setSocket in *.

Ltac run_app := unfold_app; unfold_handler; cbn [fst snd] in *.
Ltac run_chat := unfold_chat; unfold_handler; cbn [fst snd] in *.

(** ** JSON.parse *)

Lemma value_defined fuel :
  (forall s v r, Json.value fuel s = Some (v, r) -> v <> JsUndefined)
  /\ (forall s acc v r, Json.elements fuel s acc = Some (v, r) -> v <> JsUndefined)
  /\ (forall s acc v r, Json.members fuel s acc = Some (v, r) -> v <> JsUndefined).
Proof.
  induction fuel as [|fuel (IHv & IHe & IHm)]; [by repeat split|].
  repeat split; intros *; cbn [Json.value Json.elements Json.members]; intros H;
    repeat case_match; simplify_eq; try done; eauto.
Qed.

(** [JSON.parse] never returns [undefined]. *)
Lemma parse_defined text v : Json.parse text = Some v -> v <> JsUndefined.
Proof.
  unfold Json.parse. intros H.
  destruct (value_defined (2 * length text + 2)) as (Hv & _ & _).
  repeat case_match; simplify_eq. eauto.
Qed.

(** *** Termination: the parser consumes its input *)

Section Fuel.
Local Open Scope nat_scope.

Lemma skip_ws_length s : length (Json.skip_ws s) <= length s.
Proof. induction s as [|c s IH]; cbn; [lia|]. destruct (Json.is_ws c); cbn; lia. Qed.

Lemma skip_ws_cons s c rest : Json.skip_ws s = c :: rest -> length rest < length s.
Proof. intros H. pose proof (skip_ws_length s) as L. rewrite H in L. cbn in L. lia. Qed.

Lemma digits_length s acc count m k r :
  Json.digits s acc count = (m, k, r) -> length r <= length s.
Proof.
  revert acc count. induction s as [|c s IH]; cbn; intros acc count H.
  - by simplify_eq.
  - destruct (Json.is_digit c).
    + apply IH in H. lia.
    + simplify_eq. cbn. lia.
Qed.

Lemma string_body_length s acc k r :
  Json.string_body s acc = Some (k, r) -> length r < length s.
Proof.
  revert acc. induction s as [s IH] using (induction_ltof1 _ (@length N)).
  unfold ltof in IH. intros acc H. destruct s as [|c rest]; [done|].
  cbn in H. repeat case_match; simplify_eq; cbn; try lia.
  all: match goal with H : Json.string_body _ _ = Some _ |- _ => apply IH in H; cbn in *; lia end.
Qed.

Lemma literal_length w s r :
  Json.literal w s = Some r -> length s = length w + length r.
Proof.
  revert s. induction w as [|x w IH]; intros s H; cbn in H.
  - by simplify_eq.
  - destruct s as [|c s]; [done|]. destruct (x =? c)%N; [|done].
    apply IH in H. cbn. lia.
Qed.

Lemma literal_shorter w s r :
  w <> [] -> Json.literal w s = Some r -> length r < length s.
Proof. intros Hw H. apply literal_length in H. destruct w; [done|]. cbn in H. lia. Qed.

Lemma digits_cons_length c s acc count m k r :
  Json.is_digit c = true ->
  Json.digits (c :: s) acc count = (m, k, r) -> length r <= length s.
Proof. cbn. intros ->. apply digits_length. Qed.

Lemma number_length neg s n r :
  Json.number neg s = Some (n, r) -> length r < length s.
Proof.
  unfold Json.number. intros H.
  repeat case_match; simplify_eq;
  repeat match goal with
  | D : Json.is_digit ?c = true, H : Json.digits (?c :: _) _ _ = _ |- _ =>
      apply (digits_cons_length _ _ _ _ _ _ _ D) in H
  | H : Json.digits _ _ _ = _ |- _ => apply digits_length in H
  end; cbn [length] in *; try lia.
Qed.

Lemma value_consumes fuel :
  (forall s v r, Json.value fuel s = Some (v, r) -> length r < length s)
  /\ (forall s acc v r, Json.elements fuel s acc = Some (v, r) -> length r < length s)
  /\ (forall s acc v r, Json.members fuel s acc = Some (v, r) -> length r < length s).
Proof.
  induction fuel as [|fuel (IHv & IHe & IHm)]; [by repeat split|].
  repeat split; intros *; cbn [Json.value Json.elements Json.members]; intros H;
    repeat case_match; simplify_eq;
    repeat match goal with
    | H : Json.skip_ws _ = _ :: _ |- _ => apply skip_ws_cons in H
    | H : Json.string_body _ _ = Some _ |- _ => apply string_body_length in H
    | H : Json.number _ _ = Some _ |- _ => apply number_length in H
    | H : Json.literal _ _ = Some _ |- _ =>
        apply literal_shorter in H; [|by vm_compute]
    | H : Json.value _ _ = Some _ |- _ => apply IHv in H
    | H : Json.elements _ _ _ = Some _ |- _ => apply IHe in H
    | H : Json.members _ _ _ = Some _ |- _ => apply IHm in H
    end; cbn [length] in *; try lia.
Qed.

Lemma fuel_irrelevant n :
  (forall m s, 2 * length s + 2 <= n -> 2 * length s + 2 <= m ->
     Json.value n s = Json.value m s)
  /\ (forall m s acc, 2 * length s + 3 <= n -> 2 * length s + 3 <= m ->
     Json.elements n s acc = Json.elements m s acc)
  /\ (forall m s acc, 2 * length s + 3 <= n -> 2 * length s + 3 <= m ->
     Json.members n s acc = Json.members m s acc).
Proof.
  induction n as [|n (IHv & IHe & IHm)]; [repeat split; intros; lia|].
  repeat split; intros [|m] s; try (intros; lia).
  - intros Hn Hm. cbn [Json.value].
    destruct (Json.skip_ws s) as [|c rest] eqn:Hs; [done|].
    apply skip_ws_cons in Hs.
    destruct (Json.skip_ws rest) as [|c' rest'] eqn:Hs'.
    + repeat case_match; done.
    + rewrite (IHm m rest []) by lia. rewrite (IHe m rest []) by lia. done.
  - intros acc Hn Hm. cbn [Json.elements].
    rewrite (IHv m s) by lia.
    destruct (Json.value m s) as [[v rest]|] eqn:Hv; [|done].
    apply value_consumes in Hv.
    destruct (Json.skip_ws rest) as [|c rest'] eqn:Hs; [done|].
    apply skip_ws_cons in Hs.
    rewrite (IHe m rest') by lia. done.
  - intros acc Hn Hm. cbn [Json.members].
    destruct (Json.skip_ws s) as [|c rest] eqn:Hs; [done|].
    apply skip_ws_cons in Hs.
    destruct (c =? 34)%N; [|done].
    destruct (Json.string_body rest []) as [[key rest1]|] eqn:Hk; [|done].
    apply string_body_length in Hk.
    destruct (Json.skip_ws rest1) as [|c1 rest2] eqn:Hs1; [done|].
    apply skip_ws_cons in Hs1.
    destruct (c1 =? 58)%N; [|done].
    rewrite (IHv m rest2) by lia.
    destruct (Json.value m rest2) as [[v rest3]|] eqn:Hv; [|done].
    apply value_consumes in Hv.
    destruct (Json.skip_ws rest3) as [|c3 rest4] eqn:Hs3; [done|].
    apply skip_ws_cons in Hs3.
    rewrite (IHm m rest4) by lia. done.
Qed.

(** The fuel that [parse] hands out is enough: more of it changes
    nothing, so [None] always is a syntax error and never exhaustion. *)
Lemma parse_fuel_enough text fuel :
  (2 * length text + 2 <= fuel)%nat ->
  Json.value fuel text = Json.value (2 * length text + 2) text.
Proof. intros H. by apply fuel_irrelevant. Qed.

End Fuel.

(** A property read throws on [null] and [undefined] only. *)
Lemma get_property_field v key :
  v <> JsNull -> v <> JsUndefined -> get_property v (js key) = inr (field v key).
Proof. unfold field. destruct v; cbn; congruence. Qed.

Lemma property_of_parsed text v key :
  Json.parse text = Some v -> v <> JsNull ->
  get_property v (js key) = inr (field v key).
Proof. intros H Hn. apply get_property_field; [done | by eapply parse_defined]. Qed.

(** ** App.onmessage *)

Lemma App_onmessage_malformed now frame w :
  Json.parse frame = None -> App.onmessage now frame w = (Throw SyntaxError, w).
Proof. intros H. run_app. by rewrite H. Qed.

Lemma App_onmessage_null now frame w :
  Json.parse frame = Some JsNull -> App.onmessage now frame w = (Throw TypeError, w).
Proof. intros H. run_app. by rewrite H. Qed.

Lemma App_onmessage_parsed now frame d s b :
  Json.parse frame = Some d -> d <> JsNull ->
  App.onmessage now frame (s, b) =
    if truthy (field d "response") then
      (Normal tt,
       (App.mkState
          (App.messages s ++ [App.mkMessage (field d "response") false now])
          (App.input s) (App.isConnected s) false (App.wsRef s),
        mkBrowser (sockets b) (timeouts b ++ [(ScrollToBottom, 100)])
                  (console b) (localStorage b)))
    else
      (Normal tt,
       (App.mkState (App.messages s) (App.input s) (App.isConnected s) false
                    (App.wsRef s),
        b)).
Proof.
  intros H Hn. run_app. rewrite H.
  rewrite (property_of_parsed _ _ "response" H Hn).
  by destruct (truthy (field d "response")).
Qed.

(** ** ChatInterface.onmessage *)

Lemma Chat_onmessage_malformed now frame w :
  Json.parse frame = None ->
  ChatInterface.onmessage now frame w = (Throw SyntaxError, w).
Proof. intros H. run_chat. by rewrite H. Qed.

Lemma Chat_onmessage_parsed now frame d s b :
  Json.parse frame = Some d -> d <> JsNull ->
  ChatInterface.onmessage now frame (s, b) =
    (Normal tt,
     (ChatInterface.mkState
        (ChatInterface.messages s
         ++ [ChatInterface.mkMessage (toString now) (field d "message") false
               (ChatInterface.DateOf (field d "timestamp"))])
        (ChatInterface.input s) false (ChatInterface.socket s),
      b)).
Proof.
  intros H Hn. run_chat. rewrite H.
  rewrite (property_of_parsed _ _ "message" H Hn).
  by rewrite (property_of_parsed _ _ "timestamp" H Hn).
Qed.

(** ** App.handleSubmit *)

(** The guard of [handleSubmit]: blank input, no socket or not connected. *)
Lemma App_handleSubmit_rejected now s b :
  is_empty (trim (App.input s)) = true \/ App.wsRef s = None
  \/ App.isConnected s = false ->
  App.handleSubmit now (s, b) = (Normal tt, (s, b)).
Proof.
  intros H. run_app.
  destruct H as [-> | [-> | ->]]; [done | |].
  - by rewrite orb_true_r.
  - by rewrite orb_true_r.
Qed.

(** A submit that passes the guard while the socket is open. *)
Lemma App_handleSubmit_sent now s b ws sock :
  is_empty (trim (App.input s)) = false -> App.wsRef s = Some ws ->
  App.isConnected s = true ->
  sockets b !! ws = Some sock -> readyState sock = OPEN ->
  App.handleSubmit now (s, b) =
    (Normal tt,
     (App.mkState
        (App.messages s ++ [App.mkMessage (JsStr (App.input s)) true now])
        [] true true (Some ws),
      mkBrowser
        (<[ws := mkSocket (url sock) OPEN
                   (sent sock ++ [JsObj [(js "message", JsStr (App.input s));
                                         (js "user_id", JsStr (js "default"))]])]>
           (sockets b))
        (timeouts b ++ [(ScrollToBottom, 100)]) (console b) (localStorage b))).
Proof.
  intros Hi Hw Hc Hs Hr. run_app.
  rewrite Hi, Hw, Hc. cbn. rewrite Hs, Hr. cbn. by rewrite Hw, Hc.
Qed.

(* ===================================================================== *)
(** * Connection state (App) *)
(* ===================================================================== *)

Lemma can_fire_open b ws :
  can_fire b ws open = true <-> readyStateOf b ws = Some CONNECTING.
Proof.
  unfold can_fire. destruct (readyStateOf b ws) as [[]|]; split; congruence.
Qed.

(** The header shows one of two words; while a socket is connecting it
    shows Disconnected. *)
Lemma connectionStatus_two_valued s :
  App.connectionStatus s = "Connected"%string
  \/ App.connectionStatus s = "Disconnected"%string.
Proof. unfold App.connectionStatus. destruct (App.isConnected s); auto. Qed.

(** Every callback other than [onopen] leaves a disconnected client
    disconnected. *)
Lemma isConnected_after_step w now e :
  App.isConnected (fst w) = false ->
  App.isConnected (fst (App.step w (now, e))) =
    match e with
    | App.Socket ws open => can_fire (snd w) ws open
    | _ => false
    end.
Proof.
  intros Hd. destruct w as [s b]. cbn [fst snd] in *.
  destruct e as [|ws [|data| | |]|k|v|]; run_app.
  - case_bool_decide; cbn; auto.
  - destruct (can_fire b ws open); cbn; auto.
  - destruct (can_fire b ws (message data)); cbn; auto.
    destruct (Json.parse data) as [d|]; cbn; auto.
    destruct (get_property d (js "response")) as [err|r]; cbn; auto.
    destruct (truthy r); cbn; auto.
  - destruct (can_fire b ws error); cbn; auto.
  - destruct (can_fire b ws close); cbn; auto.
  - destruct (can_fire b ws closing); cbn; auto.
  - case_bool_decide; cbn; auto.
    destruct (timeouts b !! k) as [[[] ?]|]; cbn; auto.
  - cbn; auto.
  - cbn. rewrite Hd. cbn. by rewrite orb_true_r.
Qed.

(** The flag [isConnected] is set in a single step, and exactly when the
    open event of a socket that the transport still had in its connecting
    [readyState] is delivered. *)
Lemma connected_only_by_open (w : App.State * Browser) (now : N) (e : App.Event) :
  App.isConnected (fst w) = false ->
  (App.isConnected (fst (App.step w (now, e))) = true
   <-> exists ws, e = App.Socket ws open
                  /\ readyStateOf (snd w) ws = Some CONNECTING).
Proof.
  intros Hd. rewrite (isConnected_after_step _ _ _ Hd). split.
  - destruct e as [|ws [| | | |]| | |]; try discriminate.
    intros H. exists ws. split; [reflexivity | by apply can_fire_open].
  - intros (ws & -> & H). by apply can_fire_open.
Qed.

Lemma connected_only_by_open_witness :
  App.isConnected (fst Example.mounted) = false
  /\ App.isConnected (fst (App.step Example.mounted (1, App.Socket 0 open))) = true.
Proof.
  split; [reflexivity |].
  apply (connected_only_by_open Example.mounted 1 (App.Socket 0 open));
    [reflexivity |].
  exists 0%nat. split; reflexivity.
Defined.

(* ===================================================================== *)
(** * Reconnection (App) *)
(* ===================================================================== *)

Lemma App_onclose_run s b :
  App.onclose (s, b) =
    (Normal tt,
     (App.mkState (App.messages s) (App.input s) false (App.isLoading s)
                  (App.wsRef s),
      mkBrowser (sockets b) (timeouts b ++ [(Reconnect, 3000)])
                (console b ++ ["Disconnected from WebSocket"%string])
                (localStorage b))).
Proof. reflexivity. Qed.

(** C2 (as amended): after every transport close the client is
    disconnected and has scheduled one more reconnection, after the fixed
    delay of 3000 ms; the delay depends on nothing, there being no retry
    counter, jitter, base or maximum delay in the state. *)
Theorem reconnect_delay_fixed (w : App.State * Browser) (now : N) (ws : nat) :
  can_fire (snd w) ws close = true ->
  let w' := App.step w (now, App.Socket ws close) in
  timeouts (snd w') = timeouts (snd w) ++ [(Reconnect, 3000)]
  /\ App.isConnected (fst w') = false.
Proof.
  intros H. destruct w as [s b]. unfold App.step. cbn in H |- *.
  rewrite H. done.
Qed.

Lemma reconnect_delay_fixed_witness :
  timeouts (snd (App.step Example.connected (9, App.Socket 0 close)))
    = timeouts (snd Example.connected) ++ [(Reconnect, 3000)]
  /\ App.isConnected (fst (App.step Example.connected (9, App.Socket 0 close)))
     = false.
Proof. apply (reconnect_delay_fixed Example.connected 9 0). reflexivity. Defined.

(** C2 (as stated) fails: the transport closes while connected, for the
    first time; the timer that is scheduled has a delay of 3000 ms, which is
    not 1 s give or take 20%. *)
Lemma reconnect_delay_not_backoff :
  timeouts (snd (App.step Example.connected (9, App.Socket 0 close)))
    = [(Reconnect, 3000)]
  /\ ~ Spec.jittered (Spec.backoff Spec.baseDelay Spec.maxDelay 0) 3000.
Proof.
  split; [reflexivity |].
  unfold Spec.jittered. vm_compute. intros [_ H]. by apply H.
Qed.

(* ===================================================================== *)
(** * Received frames *)
(* ===================================================================== *)

(** C3 (as amended): the log has no [originId] and no delivery state, and
    the message handlers do not look at it: every received envelope that
    parses to a JSON value other than [null] (and, in [App], carries a
    truthy [response]) is appended as a new entry, also when an identical
    envelope was appended before; the same envelope delivered twice yields
    two entries. *)
Theorem receive_never_deduplicates
    (frame : jsstring) (d : JsValue) (now1 now2 : N)
    (w : App.State * Browser) (c : ChatInterface.State * Browser) :
  Json.parse frame = Some d -> d <> JsNull ->
  (truthy (field d "response") = true ->
   App.messages (fst (snd (App.onmessage now2 frame
                             (snd (App.onmessage now1 frame w))))) =
     App.messages (fst w)
     ++ [App.mkMessage (field d "response") false now1;
         App.mkMessage (field d "response") false now2])
  /\ ChatInterface.messages
       (fst (snd (ChatInterface.onmessage now2 frame
                    (snd (ChatInterface.onmessage now1 frame c))))) =
     ChatInterface.messages (fst c)
     ++ [ChatInterface.mkMessage (toString now1) (field d "message") false
           (ChatInterface.DateOf (field d "timestamp"));
         ChatInterface.mkMessage (toString now2) (field d "message") false
           (ChatInterface.DateOf (field d "timestamp"))].
Proof.
  intros H Hn. destruct w as [s b], c as [cs cb]. split.
  - intros Ht.
    rewrite (App_onmessage_parsed now1 _ _ s b H Hn), Ht. cbn [snd].
    rewrite (App_onmessage_parsed now2 _ _ _ _ H Hn), Ht. cbn.
    by rewrite <- app_assoc.
  - rewrite (Chat_onmessage_parsed now1 _ _ cs cb H Hn). cbn [snd].
    rewrite (Chat_onmessage_parsed now2 _ _ _ _ H Hn). cbn.
    by rewrite <- app_assoc.
Qed.

Lemma envelope_parsed :
  Json.parse Example.envelope =
    Some (JsObj [(js "originId", JsStr (js "a1"));
                 (js "response", JsStr (js "Hello"));
                 (js "message", JsStr (js "Hello"))]).
Proof. vm_compute. reflexivity. Qed.

Lemma receive_never_deduplicates_witness :
  length (App.messages
            (fst (snd (App.onmessage 6 Example.envelope
                         (snd (App.onmessage 5 Example.envelope
                                 Example.connected)))))) = 2%nat.
Proof.
  destruct (receive_never_deduplicates Example.envelope _ 5 6
              Example.connected Example.chat_connected envelope_parsed)
    as [Happ _]; [discriminate |].
  rewrite Happ; reflexivity.
Defined.

(** C3 (as stated) fails: the same server envelope, with the same
    [originId], arrives twice; each client then holds two entries for it. *)
Lemma duplicate_envelope_appended_twice :
  length (App.messages (fst (App.run Example.connected
            [(5, App.Socket 0 (message Example.envelope));
             (6, App.Socket 0 (message Example.envelope))]))) = 2%nat
  /\ length (ChatInterface.messages (fst (ChatInterface.run Example.chat_connected
            [(5, ChatInterface.Socket 0 (message Example.envelope));
             (6, ChatInterface.Socket 0 (message Example.envelope))]))) = 2%nat.
Proof. split; vm_compute; reflexivity. Qed.

(** C4 (as amended): for every received frame that is not well-formed
    JSON, the message handler throws the [SyntaxError] of [JSON.parse]:
    there is no decode-error value, nothing catches the exception and no
    diagnostic is logged.  The exception escapes the callback; the state of
    the client (log, loading flag, connection state, sockets, console) is
    left as it was. *)
Theorem malformed_frame_throws
    (frame : jsstring) (now : N)
    (w : App.State * Browser) (c : ChatInterface.State * Browser) :
  Json.parse frame = None ->
  App.onmessage now frame w = (Throw SyntaxError, w)
  /\ ChatInterface.onmessage now frame c = (Throw SyntaxError, c).
Proof.
  intros H. split.
  - by apply App_onmessage_malformed.
  - by apply Chat_onmessage_malformed.
Qed.

Lemma malformed_frame_throws_witness :
  App.onmessage 5 Example.garbage Example.connected
    = (Throw SyntaxError, Example.connected)
  /\ ChatInterface.onmessage 5 Example.garbage Example.chat_connected
    = (Throw SyntaxError, Example.chat_connected).
Proof.
  apply (malformed_frame_throws Example.garbage 5 Example.connected
           Example.chat_connected).
  vm_compute. reflexivity.
Defined.

(** C4 (as stated) fails: on a frame that is not JSON the handler does not
    return a decode error, it throws. *)
Lemma malformed_frame_not_dropped_quietly :
  Json.parse Example.garbage = None
  /\ fst (App.onmessage 5 Example.garbage Example.connected) <> Normal tt
  /\ fst (ChatInterface.onmessage 5 Example.garbage Example.chat_connected)
     <> Normal tt.
Proof. repeat split; vm_compute; discriminate || reflexivity. Qed.

(* ===================================================================== *)
(** * Sending (App) *)
(* ===================================================================== *)

(** C5 (as amended): a message submitted while the client is not
    connected is rejected by the guard of [handleSubmit]: the handler
    returns at once, no log entry is created, nothing is sent and nothing is
    held in a buffer; the state is left as it was.  Entries have no delivery
    state and nothing acknowledges them. *)
Theorem submit_while_disconnected_ignored (now : N) (s : App.State) (b : Browser) :
  App.isConnected s = false ->
  App.handleSubmit now (s, b) = (Normal tt, (s, b)).
Proof. intros H. apply App_handleSubmit_rejected. auto. Qed.

Lemma submit_while_disconnected_ignored_witness :
  App.handleSubmit 3 Example.typed_offline = (Normal tt, Example.typed_offline).
Proof.
  apply (submit_while_disconnected_ignored 3 (fst Example.typed_offline)
           (snd Example.typed_offline)).
  reflexivity.
Defined.

(** C5 (as stated) fails: the user types Hi and submits before the socket
    has opened; the log stays empty, and the socket has been handed
    nothing. *)
Lemma submit_while_disconnected_no_entry :
  App.input (fst Example.typed_offline) = js "Hi"
  /\ App.isConnected (fst Example.typed_offline) = false
  /\ App.messages (fst (App.step Example.typed_offline (3, App.Submit))) = []
  /\ sent <$> sockets (snd (App.step Example.typed_offline (3, App.Submit)))
     = [[]].
Proof. repeat split; vm_compute; reflexivity. Qed.

(** C9 (as amended): in the main chat client, every received frame that
    parses to a JSON value other than [null] clears the loading flag, also
    when it carries no displayable reply: without a truthy [response] no
    entry is appended, yet [isLoading] is set to false; with one, the reply
    is appended as well. *)
Theorem parsed_frame_clears_loading
    (frame : jsstring) (d : JsValue) (now : N) (w : App.State * Browser) :
  Json.parse frame = Some d -> d <> JsNull ->
  let r := App.onmessage now frame w in
  fst r = Normal tt
  /\ App.isLoading (fst (snd r)) = false
  /\ App.messages (fst (snd r)) =
       if truthy (field d "response")
       then App.messages (fst w) ++ [App.mkMessage (field d "response") false now]
       else App.messages (fst w).
Proof.
  intros H Hn. destruct w as [s b]. cbv zeta.
  rewrite (App_onmessage_parsed now _ _ s b H Hn).
  by destruct (truthy (field d "response")).
Qed.

Lemma parsed_frame_clears_loading_witness :
  App.isLoading (fst Example.awaiting) = true
  /\ App.isLoading
       (fst (snd (App.onmessage 5 Example.empty_object Example.awaiting))) = false
  /\ App.messages
       (fst (snd (App.onmessage 5 Example.empty_object Example.awaiting)))
     = App.messages (fst Example.awaiting).
Proof.
  split; [reflexivity |].
  destruct (parsed_frame_clears_loading Example.empty_object (JsObj []) 5
              Example.awaiting) as (_ & Hl & Hm);
    [vm_compute; reflexivity | discriminate |].
  split; [exact Hl | exact Hm].
Defined.

(** C9 (as stated) fails: a reply is awaited and a frame arrives that is
    not JSON, or that is the JSON [null]; the handler throws before it
    reaches [setIsLoading(false)], and the client goes on waiting. *)
Lemma malformed_frame_keeps_loading :
  App.isLoading (fst Example.awaiting) = true
  /\ App.isLoading
       (fst (App.step Example.awaiting (5, App.Socket 0 (message Example.garbage))))
     = true
  /\ App.isLoading
       (fst (App.step Example.awaiting (5, App.Socket 0 (message Example.null_frame))))
     = true.
Proof. repeat split; vm_compute; reflexivity. Qed.

(* ===================================================================== *)
(** * The conversation log *)
(* ===================================================================== *)

Lemma App_step_extends w ev :
  extends (App.messages (fst w)) (App.messages (fst (App.step w ev))).
Proof.
  destruct w as [s b], ev as [now e]. unfold extends.
  destruct e as [|ws [|data| | |]|k|v|]; run_app;
    repeat (case_match; simplify_eq; cbn [fst snd App.messages] in *); eauto.
Qed.

Lemma Chat_step_extends w now e :
  e <> ChatInterface.ClearChat ->
  extends (ChatInterface.messages (fst w))
          (ChatInterface.messages (fst (ChatInterface.step w (now, e)))).
Proof.
  intros Hc. destruct w as [s b]. unfold extends.
  destruct e as [|ws [|data| | |]|v| |]; try done; run_chat;
    repeat (case_match; simplify_eq; cbn [fst snd ChatInterface.messages] in *);
    eauto.
Qed.

(** C10 (as amended): the conversation log is append-only except for
    clear.  Every mutation by the send and receive handlers appends exactly
    one entry at the end and leaves the stored entries and their order
    unchanged: for every state with log L and every operation other than
    clear, the log afterwards is L itself (the operation did not touch the
    log) or L followed by one new entry. *)
Theorem log_append_only
    (w : App.State * Browser) (ev : N * App.Event)
    (c : ChatInterface.State * Browser) (now : N) (e : ChatInterface.Event) :
  e <> ChatInterface.ClearChat ->
  (App.messages (fst (App.step w ev)) = App.messages (fst w)
   \/ exists m, App.messages (fst (App.step w ev)) = App.messages (fst w) ++ [m])
  /\ (ChatInterface.messages (fst (ChatInterface.step c (now, e)))
        = ChatInterface.messages (fst c)
      \/ exists m, ChatInterface.messages (fst (ChatInterface.step c (now, e)))
                   = ChatInterface.messages (fst c) ++ [m]).
Proof.
  intros Hc. split.
  - apply App_step_extends.
  - by apply Chat_step_extends.
Qed.

Lemma log_append_only_witness :
  (App.messages (fst (App.step Example.typed_offline (3, App.Submit)))
     = App.messages (fst Example.typed_offline)
   \/ exists m, App.messages (fst (App.step Example.typed_offline (3, App.Submit)))
                = App.messages (fst Example.typed_offline) ++ [m])
  /\ (ChatInterface.messages
        (fst (ChatInterface.step Example.chat_connected
                (5, ChatInterface.Socket 0 (message Example.envelope))))
        = ChatInterface.messages (fst Example.chat_connected)
      \/ exists m,
           ChatInterface.messages
             (fst (ChatInterface.step Example.chat_connected
                     (5, ChatInterface.Socket 0 (message Example.envelope))))
           = ChatInterface.messages (fst Example.chat_connected) ++ [m]).
Proof.
  apply (log_append_only Example.typed_offline (3, App.Submit)
           Example.chat_connected 5
           (ChatInterface.Socket 0 (message Example.envelope))).
  discriminate.
Defined.

(** C10 (as stated) fails in its last clause: a frame without a reply is
    received (or a submit is refused); the operation is not a clear, and the
    log after it is the log before it, which is no strict prefix of
    itself. *)
Lemma log_unchanged_not_strict_prefix :
  let L := App.messages (fst Example.awaiting) in
  let L' := App.messages
              (fst (App.step Example.awaiting
                      (5, App.Socket 0 (message Example.empty_object)))) in
  L' = L /\ ~ Spec.strict_prefix L L'.
Proof.
  cbv zeta. split; [vm_compute; reflexivity |].
  intros (x & rest & H). vm_compute in H. discriminate.
Qed.

(** C6: [handleClearChat] empties the conversation log, in one state
    update, and changes nothing else: the other cells of the component (its
    socket, the loading flag, the input), the session credentials in memory,
    and the browser with its sockets and its durable storage are as they
    were before the call. *)
Theorem clear_chat_frame
    (chat : ChatInterface.State) (auth : Auth.State) (b : Browser) :
  in_fst ChatInterface.handleClearChat ((chat, auth), b) =
    (Normal tt,
     ((ChatInterface.mkState [] (ChatInterface.input chat)
         (ChatInterface.isLoading chat) (ChatInterface.socket chat),
       auth),
      b))
  /\ length (ChatInterface.messages
               (fst (fst (snd (in_fst ChatInterface.handleClearChat
                                 ((chat, auth), b)))))) = 0%nat.
Proof. split; reflexivity. Qed.

(* ===================================================================== *)
(** * The session *)
(* ===================================================================== *)

Lemma logout_run a b :
  Auth.logout (a, b) =
    (Normal tt,
     (Auth.mkState None,
      mkBrowser (sockets b) (timeouts b) (console b)
                (delete Auth.token_key (localStorage b)))).
Proof. reflexivity. Qed.

(** C7: [logout] is idempotent.  After one call the credentials are gone
    from memory and the token from durable storage; a second call right
    after it completes without error and changes nothing. *)
Theorem logout_idempotent (a : Auth.State) (b : Browser) :
  let once := Auth.logout (a, b) in
  let twice := Auth.logout (snd once) in
  fst once = Normal tt
  /\ Auth.absent (fst (snd once)) (snd (snd once))
  /\ twice = (Normal tt, snd once)
  /\ Auth.absent (fst (snd twice)) (snd (snd twice)).
Proof.
  cbv zeta. rewrite logout_run. cbn [fst snd]. rewrite logout_run.
  cbn [sockets timeouts console localStorage].
  rewrite delete_delete_eq.
  unfold Auth.absent. cbn. rewrite lookup_delete_eq. done.
Qed.



(** The sign-in form on a failing [login]: whatever the error, it shows
    the same message, ends the loading state and touches neither the
    credentials nor the browser. *)
Lemma Login_handleSubmit_failure reply s a b :
  (forall c, reply <> Auth.Granted c) ->
  Login.handleSubmit reply ((s, a), b) =
    (Normal tt,
     ((Login.mkState (Login.username s) (Login.password s)
         (Some "Invalid username or password"%string) false,
       a),
      b)).
Proof. intros H. destruct reply; [by destruct (H c) | | |]; reflexivity. Qed.

(* ===================================================================== *)
(** * The sockets of App *)
(* ===================================================================== *)

Lemma count_filter_app {A} (f : A -> bool) l1 l2 :
  length (List.filter f (l1 ++ l2)) =
  (length (List.filter f l1) + length (List.filter f l2))%nat.
Proof. by rewrite List.filter_app, length_app. Qed.

Lemma count_filter_delete {A} (f : A -> bool) (l : list A) k x :
  l !! k = Some x ->
  (length (List.filter f (delete k l)) + (if f x then 1 else 0))%nat
  = length (List.filter f l).
Proof.
  revert k. induction l as [|y l IH]; intros [|k] H; simplify_eq/=.
  - destruct (f x); cbn; lia.
  - specialize (IH _ H). destruct (f y); cbn; lia.
Qed.

Lemma lookup_snoc {A} (l : list A) x : (l ++ [x]) !! length l = Some x.
Proof. by apply list_lookup_middle. Qed.

Lemma insert_snoc {A} (l : list A) x y : <[length l := y]> (l ++ [x]) = l ++ [y].
Proof. induction l as [|z l IH]; [done|]. simpl. by f_equal. Qed.

(** Among sockets that are all closed but the newest, a socket that is not
    closed is the newest. *)
Lemma live_is_newest n newest ws st :
  (replicate n CLOSED ++ [newest]) !! ws = Some st -> st <> CLOSED ->
  ws = n /\ st = newest.
Proof.
  intros Hl Hn.
  destruct (decide (ws < n)%nat) as [Hlt|Hge].
  - rewrite lookup_app_l in Hl by (by rewrite length_replicate).
    apply lookup_replicate in Hl as [-> _]. done.
  - rewrite lookup_app_r in Hl by (rewrite length_replicate; lia).
    rewrite length_replicate in Hl.
    destruct (ws - n)%nat as [|k] eqn:E; [|by destruct k].
    simplify_eq/=. split; [lia | done].
Qed.

Lemma insert_newest n (st st' : ReadyState) :
  <[n := st']> (replicate n CLOSED ++ [st]) = replicate n CLOSED ++ [st'].
Proof.
  rewrite <- (length_replicate n CLOSED) at 1. apply insert_snoc.
Qed.

Lemma lookup_newest n (st : ReadyState) :
  (replicate n CLOSED ++ [st]) !! n = Some st.
Proof. apply list_lookup_middle. by rewrite length_replicate. Qed.

Lemma readyStateOf_lookup b ws : readyStateOf b ws = readyStates b !! ws.
Proof. unfold readyStateOf, readyStates. by rewrite list_lookup_fmap. Qed.

Lemma inv_can_fire s b ws e :
  connection_inv (s, b) -> can_fire b ws e = true ->
  exists newest,
    readyStates b = replicate ws CLOSED ++ [newest]
    /\ readyStateOf b ws = Some newest
    /\ App.wsRef s = Some ws
    /\ reconnects b = 0%nat
    /\ (newest = CONNECTING /\ App.isConnected s = false
        \/ newest = OPEN \/ newest = CLOSING).
Proof.
  unfold connection_inv, can_fire. rewrite readyStateOf_lookup. cbn [fst snd].
  intros Hinv Hf.
  destruct (readyStates b !! ws) as [st|] eqn:Hl; [|by destruct e].
  destruct (App.wsRef s) as [r|].
  - destruct Hinv as (newest & Hs & Hst).
    rewrite Hs in Hl.
    destruct (live_is_newest _ _ _ _ Hl) as [-> ->].
    { intros ->. by destruct e. }
    exists newest. rewrite Hs. split; [done|]. split; [done|].
    split; [done|].
    destruct newest.
    + destruct Hst. auto.
    + auto.
    + auto.
    + by destruct e.
  - destruct Hinv as (Hs & _). unfold readyStates in Hl. by rewrite Hs in Hl.
Qed.

(** A step that keeps the reference, the ready states and the pending
    reconnections, and does not connect, keeps the invariant. *)
Lemma connection_inv_frame s b s' b' :
  connection_inv (s, b) ->
  App.wsRef s' = App.wsRef s ->
  readyStates b' = readyStates b ->
  reconnects b' = reconnects b ->
  (App.isConnected s' = true -> App.isConnected s = true) ->
  connection_inv (s', b').
Proof.
  unfold connection_inv. cbn [fst snd]. intros Hinv -> Hs -> Hc.
  destruct (App.wsRef s).
  - destruct Hinv as (newest & Hn & Hst). exists newest. rewrite Hs.
    split; [done|].
    destruct newest; try done; destruct Hst as [? Hd]; split; try done;
      destruct (App.isConnected s'); try done; by rewrite Hc in Hd.
  - destruct Hinv as (Hn & ? & Hd). unfold readyStates in Hs. rewrite Hn in Hs.
    apply fmap_nil_inv in Hs. repeat split; try done.
    destruct (App.isConnected s'); try done; by rewrite Hc in Hd.
Qed.

Lemma reconnects_scroll s t c l d :
  reconnects (mkBrowser s (t ++ [(ScrollToBottom, d)]) c l)
  = reconnects (mkBrowser s t c l).
Proof. unfold reconnects. cbn. rewrite count_filter_app. cbn. lia. Qed.

Lemma onmessage_frame now data s b :
  let w' := snd (App.onmessage now data (s, b)) in
  App.wsRef (fst w') = App.wsRef s
  /\ readyStates (snd w') = readyStates b
  /\ reconnects (snd w') = reconnects b
  /\ App.isConnected (fst w') = App.isConnected s.
Proof.
  cbv zeta.
  destruct (Json.parse data) as [d|] eqn:Hp.
  - assert (d = JsNull \/ d <> JsNull) as [->|Hn]
      by (destruct d; auto; right; discriminate).
    + by rewrite (App_onmessage_null _ _ _ Hp).
    + rewrite (App_onmessage_parsed _ _ _ _ _ Hp Hn).
      destruct (truthy _); cbn; repeat split; try done.
      destruct b. apply reconnects_scroll.
  - by rewrite (App_onmessage_malformed _ _ _ Hp).
Qed.

Lemma handleSubmit_frame now s b :
  let w' := snd (App.handleSubmit now (s, b)) in
  App.wsRef (fst w') = App.wsRef s
  /\ readyStates (snd w') = readyStates b
  /\ reconnects (snd w') = reconnects b
  /\ App.isConnected (fst w') = App.isConnected s.
Proof.
  cbv zeta. run_app.
  destruct (is_empty _ || _ || _); cbn; [done|].
  destruct (App.wsRef s) as [ws|]; cbn.
  - destruct (sockets b !! ws) as [sock|] eqn:Hl; cbn.
    + destruct (readyState sock) eqn:Hr; cbn; repeat split; try done;
        try (destruct b; apply reconnects_scroll).
      unfold readyStates. cbn. rewrite list_fmap_insert. cbn.
      apply list_insert_id. by rewrite list_lookup_fmap, Hl, <- Hr.
    + repeat split; try done. destruct b; apply reconnects_scroll.
  - repeat split; try done. destruct b; apply reconnects_scroll.
Qed.

Lemma connection_inv_step w ev : connection_inv w -> connection_inv (App.step w ev).
Proof.
  destruct w as [s b], ev as [now e]. intros Hinv.
  destruct e as [|ws [|data| | |]|k|v|].
  - (* Mount *)
    unfold connection_inv in *. cbn [fst snd] in *.
    run_app. case_bool_decide as Hw; cbn [fst snd]; [|done].
    rewrite Hw in Hinv. destruct Hinv as (Hs & Hr & Hc). cbn.
    exists CONNECTING. unfold readyStates. cbn. rewrite Hs. done.
  - (* open *)
    unfold App.step. cbn [fst snd App.enabled].
    destruct (can_fire b ws open) eqn:Hf; [|done].
    destruct (inv_can_fire _ _ _ _ Hinv Hf) as (newest & Hs & Hl & Hw & Hr & Hst).
    unfold readyStateOf in Hl.
    destruct (sockets b !! ws) as [sock|] eqn:Hsock; [|done].
    run_app. cbn. rewrite Hsock.
    unfold connection_inv. cbn. rewrite Hw. exists OPEN.
    unfold readyStates. cbn. rewrite list_fmap_insert. cbn.
    fold (readyStates b). rewrite Hs, insert_newest. done.
  - (* message *)
    unfold App.step. cbn [fst snd App.enabled App.dispatch].
    destruct (can_fire b ws (message data)); [|done].
    destruct (onmessage_frame now data s b) as (? & ? & ? & Hc).
    destruct (App.onmessage now data (s, b)) as [r [s' b']].
    eapply connection_inv_frame; eauto. all: cbn in *; congruence.
  - (* error *)
    unfold App.step. cbn [fst snd App.enabled App.dispatch].
    destruct (can_fire b ws error); [|done].
    eapply connection_inv_frame; eauto; done.
  - (* close *)
    unfold App.step. cbn [fst snd App.enabled].
    destruct (can_fire b ws close) eqn:Hf; [|done].
    destruct (inv_can_fire _ _ _ _ Hinv Hf) as (newest & Hs & Hl & Hw & Hr & Hst).
    unfold readyStateOf in Hl.
    destruct (sockets b !! ws) as [sock|] eqn:Hsock; [|done].
    run_app. cbn. rewrite Hsock.
    unfold connection_inv. cbn. rewrite Hw. exists CLOSED.
    unfold readyStates. cbn. rewrite list_fmap_insert. cbn.
    fold (readyStates b). rewrite Hs, insert_newest. split; [done|].
    split; [|done]. unfold reconnects in *. cbn.
    rewrite count_filter_app, Hr. done.
  - (* the closing handshake starts *)
    unfold App.step. cbn [fst snd App.enabled].
    destruct (can_fire b ws closing) eqn:Hf; [|done].
    destruct (inv_can_fire _ _ _ _ Hinv Hf) as (newest & Hs & Hl & Hw & Hr & Hst).
    unfold readyStateOf in Hl.
    destruct (sockets b !! ws) as [sock|] eqn:Hsock; [|done].
    run_app. cbn. rewrite Hsock.
    unfold connection_inv. cbn. rewrite Hw. exists CLOSING.
    unfold readyStates. cbn. rewrite list_fmap_insert. cbn.
    fold (readyStates b). rewrite Hs, insert_newest. done.
  - (* a timer *)
    unfold App.step. cbn [fst snd App.enabled].
    case_bool_decide as Hk; [|done]. destruct Hk as [[cb d] Hk].
    pose proof (count_filter_delete is_reconnect _ _ _ Hk) as Hcount.
    run_app. rewrite Hk. cbn.
    destruct cb; cbn in Hcount.
    + (* the reconnection *)
      unfold connection_inv in *. cbn [fst snd] in *.
      unfold reconnects in *. cbn.
      destruct (App.wsRef s) as [ws|].
      * destruct Hinv as (newest & Hs & Hst).
        destruct newest; [destruct Hst; lia | lia | lia |].
        destruct Hst as [Hr Hd].
        exists CONNECTING. unfold readyStates in *. cbn.
        rewrite fmap_app, Hs. cbn.
        assert (length (sockets b) = S ws) as ->.
        { rewrite <- (length_fmap readyState), Hs, length_app, length_replicate.
          cbn. lia. }
        split; [|split; [lia|done]].
        f_equal. change [CLOSED] with (replicate 1 CLOSED).
        rewrite <- replicate_add. f_equal. lia.
      * destruct Hinv as (_ & Hr & _). lia.
    + (* a scroll *)
      eapply connection_inv_frame; eauto; try done.
      unfold reconnects in *. cbn. lia.
  - (* Change *)
    unfold App.step. cbn [fst snd App.enabled App.dispatch].
    eapply connection_inv_frame; eauto; done.
  - (* Submit *)
    unfold App.step. cbn [fst snd App.enabled App.dispatch].
    destruct (handleSubmit_frame now s b) as (? & ? & ? & Hc).
    destruct (App.handleSubmit now (s, b)) as [r [s' b']].
    eapply connection_inv_frame; eauto. all: cbn in *; congruence.
Qed.

Lemma connection_inv_run w evs : connection_inv w -> connection_inv (App.run w evs).
Proof.
  revert w. induction evs as [|ev evs IH]; intros w H; [done|].
  cbn. apply IH. by apply connection_inv_step.
Qed.

Lemma connection_inv_initial : connection_inv (App.initial, emptyBrowser).
Proof. by cbn. Qed.

(** X1: a mounted [App] never holds two live connections.  In every state
    it reaches, a socket that is not closed is the newest one, the one
    [wsRef] refers to, and no reconnection is pending while it lives. *)
Theorem at_most_one_live_socket (evs : list (N * App.Event)) (ws : nat) (st : ReadyState) :
  let w := App.run (App.initial, emptyBrowser) evs in
  readyStateOf (snd w) ws = Some st -> st <> CLOSED ->
  App.wsRef (fst w) = Some ws
  /\ S ws = length (sockets (snd w))
  /\ reconnects (snd w) = 0%nat.
Proof.
  cbv zeta. intros Hl Hn.
  pose proof (connection_inv_run _ evs connection_inv_initial) as Hinv.
  destruct (App.run _ evs) as [s b]. cbn [fst snd] in *.
  unfold connection_inv in Hinv. cbn [fst snd] in Hinv.
  rewrite readyStateOf_lookup in Hl.
  destruct (App.wsRef s) as [r|].
  - destruct Hinv as (newest & Hs & Hst). rewrite Hs in Hl.
    destruct (live_is_newest _ _ _ _ Hl Hn) as [-> ->].
    split; [done|]. split.
    + rewrite <- (length_fmap readyState). fold (readyStates b).
      rewrite Hs, length_app, length_replicate. cbn. lia.
    + destruct newest; try done; by destruct Hst.
  - destruct Hinv as (Hs & _). unfold readyStates in Hl. by rewrite Hs in Hl.
Qed.

Lemma at_most_one_live_socket_witness :
  App.wsRef (fst Example.connected) = Some 0%nat
  /\ 1%nat = length (sockets (snd Example.connected))
  /\ reconnects (snd Example.connected) = 0%nat.
Proof.
  apply (at_most_one_live_socket [(0, App.Mount); (1, App.Socket 0 open)] 0 OPEN);
    [reflexivity | discriminate].
Defined.

(** A Disconnected client is not Connected after the next event. *)
Lemma disconnected_not_connected_next w ev :
  connection_inv w ->
  connectionState w = Disconnected -> connectionState (App.step w ev) <> Connected.
Proof.
  destruct w as [s b], ev as [now e]. intros Hinv Hd Hc.
  unfold connectionState in Hd, Hc. cbn [fst snd] in Hd.
  destruct (App.isConnected s) eqn:Hs; [done|].
  destruct (App.isConnected (fst (App.step (s, b) (now, e)))) eqn:Hs'; [|by repeat case_match].
  apply (connected_only_by_open (s, b) now e Hs) in Hs' as (ws & -> & Hr).
  cbn [snd] in Hr.
  destruct (inv_can_fire s b ws open Hinv) as (newest & _ & _ & Hw & _).
  { by apply can_fire_open. }
  by rewrite Hw, Hr in Hd.
Qed.

(** On the way from Disconnected to Connected lies a Connecting state. *)
Lemma connecting_in_between w evs :
  connection_inv w ->
  connectionState w = Disconnected ->
  connectionState (App.run w evs) = Connected ->
  exists before after,
    evs = before ++ after /\ connectionState (App.run w before) = Connecting.
Proof.
  revert w. induction evs as [|ev evs IH]; intros w Hinv Hd Hc.
  - cbn in Hc. congruence.
  - cbn [App.run fold_left] in Hc.
    destruct (connectionState (App.step w ev)) eqn:Hn.
    + destruct (IH (App.step w ev)) as (before & after & -> & H); try done.
      { by apply connection_inv_step. }
      by exists (ev :: before), after.
    + by exists [ev], evs.
    + by destruct (disconnected_not_connected_next w ev Hinv Hd).
Qed.

(** C1: for every sequence of events, the connection state never moves
    from Disconnected to Connected without passing through Connecting.  On
    every run of a mounted [App] that leads from a Disconnected state to a
    Connected one, a Connecting state lies in between: the open event that
    connects the client is that of the socket [connectWebSocket] created
    last, which was connecting until then. *)
Theorem connected_only_through_connecting (evs1 evs2 : list (N * App.Event)) :
  let w1 := App.run (App.initial, emptyBrowser) evs1 in
  connectionState w1 = Disconnected ->
  connectionState (App.run w1 evs2) = Connected ->
  exists before after,
    evs2 = before ++ after /\ connectionState (App.run w1 before) = Connecting.
Proof.
  cbv zeta. apply connecting_in_between.
  apply connection_inv_run, connection_inv_initial.
Qed.

Lemma connected_only_through_connecting_witness :
  exists before after,
    [(0, App.Mount); (1, App.Socket 0 open)] = before ++ after
    /\ connectionState (App.run (App.initial, emptyBrowser) before) = Connecting.
Proof.
  apply (connected_only_through_connecting [] [(0, App.Mount); (1, App.Socket 0 open)]);
    reflexivity.
Defined.

(** X2: whenever a mounted [App] shows Connected, [wsRef] refers to a
    socket that is open, or closing because the peer has started the closing
    handshake; it is never one that is still connecting or already
    closed. *)
Theorem connected_means_open_or_closing (evs : list (N * App.Event)) :
  let w := App.run (App.initial, emptyBrowser) evs in
  App.isConnected (fst w) = true ->
  exists ws,
    App.wsRef (fst w) = Some ws
    /\ (readyStateOf (snd w) ws = Some OPEN
        \/ readyStateOf (snd w) ws = Some CLOSING).
Proof.
  cbv zeta. intros Hc.
  pose proof (connection_inv_run _ evs connection_inv_initial) as Hinv.
  destruct (App.run _ evs) as [s b]. cbn [fst snd] in *.
  unfold connection_inv in Hinv. cbn [fst snd] in Hinv.
  destruct (App.wsRef s) as [r|].
  - destruct Hinv as (newest & Hs & Hst). exists r. split; [done|].
    rewrite readyStateOf_lookup, Hs.
    rewrite lookup_newest.
    destruct newest; auto; destruct Hst; congruence.
  - destruct Hinv as (_ & _ & Hd). congruence.
Qed.

Lemma connected_means_open_or_closing_witness :
  exists ws,
    App.wsRef (fst Scenario.typed_while_closing) = Some ws
    /\ (readyStateOf (snd Scenario.typed_while_closing) ws = Some OPEN
        \/ readyStateOf (snd Scenario.typed_while_closing) ws = Some CLOSING).
Proof.
  apply (connected_means_open_or_closing
           [(0, App.Mount); (1, App.Socket 0 open); (2, App.Socket 0 closing);
            (3, App.Change (js "Hi"))]).
  reflexivity.
Defined.

(** A submit that passes the guard while the socket is closing: the frame
    is discarded. *)
Lemma App_handleSubmit_discarded now s b ws sock :
  is_empty (trim (App.input s)) = false -> App.wsRef s = Some ws ->
  App.isConnected s = true ->
  sockets b !! ws = Some sock -> readyState sock = CLOSING ->
  App.handleSubmit now (s, b) =
    (Normal tt,
     (App.mkState
        (App.messages s ++ [App.mkMessage (JsStr (App.input s)) true now])
        [] true true (Some ws),
      mkBrowser (sockets b) (timeouts b ++ [(ScrollToBottom, 100)])
                (console b) (localStorage b))).
Proof.
  intros Hi Hw Hc Hs Hr. run_app.
  rewrite Hi, Hw, Hc. cbn. rewrite Hs, Hr. cbn. by rewrite Hw, Hc.
Qed.

(** X3: an enabled Send button never throws, but may lose the message.  In
    every state a mounted [App] reaches in which the button is not
    disabled, [handleSubmit] completes normally: it appends the user's
    entry, empties the input and sets the loading flag.  The frame with
    [message] and [user_id] is handed to the socket [wsRef] refers to when
    that socket is open; when it is closing, the frame is discarded without
    any sign. *)
Theorem enabled_send_button_never_throws (evs : list (N * App.Event)) (now : N) :
  let w := App.run (App.initial, emptyBrowser) evs in
  App_sendDisabled (fst w) = false ->
  exists ws sock,
    App.wsRef (fst w) = Some ws
    /\ sockets (snd w) !! ws = Some sock
    /\ (readyState sock = OPEN \/ readyState sock = CLOSING)
    /\ App.handleSubmit now w =
       (Normal tt,
        (App.mkState
           (App.messages (fst w)
            ++ [App.mkMessage (JsStr (App.input (fst w))) true now])
           [] true true (Some ws),
         mkBrowser
           match readyState sock with
           | OPEN =>
               <[ws := mkSocket (url sock) OPEN
                         (sent sock
                          ++ [JsObj [(js "message", JsStr (App.input (fst w)));
                                     (js "user_id", JsStr (js "default"))]])]>
                 (sockets (snd w))
           | _ => sockets (snd w)
           end
           (timeouts (snd w) ++ [(ScrollToBottom, 100)])
           (console (snd w)) (localStorage (snd w)))).
Proof.
  cbv zeta. intros Hd. unfold App_sendDisabled in Hd.
  apply orb_false_elim in Hd as [Hd Hi].
  apply orb_false_elim in Hd as [Hc _].
  apply negb_false_iff in Hc.
  destruct (connected_means_open_or_closing evs Hc) as (ws & Hw & Hr).
  destruct (App.run _ evs) as [s b]. cbn [fst snd] in *.
  unfold readyStateOf in Hr.
  destruct (sockets b !! ws) as [sock|] eqn:Hs; [|by destruct Hr].
  exists ws, sock. cbn in Hr.
  destruct Hr as [Hr | Hr]; injection Hr as Hr; rewrite Hr;
    repeat split; auto.
  - by apply (App_handleSubmit_sent now s b ws sock).
  - by apply (App_handleSubmit_discarded now s b ws sock).
Qed.

Lemma enabled_send_button_never_throws_witness :
  let w' := snd (App.handleSubmit 4 Scenario.typed_while_closing) in
  fst (App.handleSubmit 4 Scenario.typed_while_closing) = Normal tt
  /\ length (App.messages (fst w')) = 1%nat
  /\ App.isLoading (fst w') = true
  /\ sent <$> sockets (snd w') = [[]].
Proof.
  destruct (enabled_send_button_never_throws
              [(0, App.Mount); (1, App.Socket 0 open); (2, App.Socket 0 closing);
               (3, App.Change (js "Hi"))] 4)
    as (ws & sock & Hw & Hs & _ & Hrun); [reflexivity |].
  vm_compute in Hw. injection Hw as <-.
  vm_compute in Hs. injection Hs as <-.
  change (App.run (App.initial, emptyBrowser) _)
    with Scenario.typed_while_closing in Hrun.
  cbv zeta. rewrite Hrun. repeat split; reflexivity.
Defined.

(** ** Blank input *)

Lemma trim_start_nil s : trim_start s = [] <-> forallb is_js_space s = true.
Proof.
  induction s as [|c s IH]; cbn; [done|].
  destruct (is_js_space c); cbn; [done|]. split; discriminate.
Qed.

Lemma trim_start_head s :
  trim_start s = [] \/ exists c rest, trim_start s = c :: rest /\ is_js_space c = false.
Proof.
  induction s as [|c s IH]; cbn; [by left|].
  destruct (is_js_space c) eqn:E; [done|]. right. by exists c, s.
Qed.

Lemma forallb_rev {A} (f : A -> bool) l : forallb f (rev l) = forallb f l.
Proof.
  induction l as [|x l IH]; [done|]. cbn. rewrite forallb_app, IH. cbn.
  rewrite andb_true_r. apply andb_comm.
Qed.

(** [trim] yields the empty string exactly on strings of white space. *)
Lemma trim_blank s : is_empty (trim s) = forallb is_js_space s.
Proof.
  unfold trim.
  destruct (trim_start_head s) as [Hn | (c & rest & Hs & Hc)].
  - rewrite Hn. cbn. symmetry. by apply trim_start_nil.
  - assert (forallb is_js_space s = false) as ->.
    { destruct (forallb is_js_space s) eqn:E; [|done].
      apply trim_start_nil in E. congruence. }
    rewrite Hs.
    destruct (trim_start (rev (c :: rest))) as [|x l] eqn:E;
      [|cbn [rev]; by destruct (rev l)].
    apply trim_start_nil in E. rewrite forallb_rev in E. cbn in E.
    by rewrite Hc in E.
Qed.

(** X4: input made of white space only is never sent.  [handleSubmit] of
    [App] and [handleSend] of [ChatInterface] return without any effect on
    it, whatever the connection, and both Send buttons are disabled. *)
Theorem blank_input_is_not_sent
    (now : N) (s : App.State) (b : Browser)
    (c : ChatInterface.State) (cb : Browser) :
  forallb is_js_space (App.input s) = true ->
  forallb is_js_space (ChatInterface.input c) = true ->
  App.handleSubmit now (s, b) = (Normal tt, (s, b))
  /\ App_sendDisabled s = true
  /\ ChatInterface.handleSend now (c, cb) = (Normal tt, (c, cb))
  /\ Chat_sendDisabled c = true.
Proof.
  intros Ha Hc. rewrite <- trim_blank in Ha, Hc. repeat split.
  - apply App_handleSubmit_rejected. auto.
  - unfold App_sendDisabled. rewrite Ha. apply orb_true_r.
  - run_chat. by rewrite Hc.
  - unfold Chat_sendDisabled. by rewrite Hc.
Qed.

Lemma blank_input_is_not_sent_witness :
  App.isConnected (fst Scenario.blank_typed) = true
  /\ App.handleSubmit 3 Scenario.blank_typed = (Normal tt, Scenario.blank_typed)
  /\ ChatInterface.handleSend 3 Scenario.chat_blank_typed
     = (Normal tt, Scenario.chat_blank_typed).
Proof.
  split; [reflexivity |].
  destruct (blank_input_is_not_sent 3
              (fst Scenario.blank_typed) (snd Scenario.blank_typed)
              (fst Scenario.chat_blank_typed) (snd Scenario.chat_blank_typed))
    as (Ha & _ & Hc & _); [reflexivity | reflexivity |].
  split; [exact Ha | exact Hc].
Defined.

(* ===================================================================== *)
(** * Reconnection, the log, durable storage *)
(* ===================================================================== *)

Lemma delete_snoc {A} (l : list A) x : delete (length l) (l ++ [x]) = l.
Proof. induction l as [|y l IH]; [done|]. simpl. by f_equal. Qed.

(** X5: how [App] reconnects.  When a socket closes and the timer that
    [onclose] scheduled expires, [connectWebSocket] opens one new socket to
    the same address, still connecting, and makes [wsRef] refer to it; the
    closed socket stays closed, the client shows Disconnected, and the log
    and the other timers are as before the close. *)
Theorem close_then_timer_reconnects
    (w : App.State * Browser) (ws : nat) (t1 t2 : N) :
  can_fire (snd w) ws close = true ->
  let closed := App.step w (t1, App.Socket ws close) in
  let w' := App.step closed (t2, App.TimerFired (length (timeouts (snd w)))) in
  sockets (snd w') =
    sockets (snd closed) ++ [mkSocket "ws://localhost:7860/ws/chat" CONNECTING []]
  /\ readyStateOf (snd closed) ws = Some CLOSED
  /\ App.wsRef (fst w') = Some (length (sockets (snd w)))
  /\ App.isConnected (fst w') = false
  /\ timeouts (snd w') = timeouts (snd w)
  /\ App.messages (fst w') = App.messages (fst w).
Proof.
  intros Hf. destruct w as [s b]. cbn [fst snd] in *.
  assert (exists sock, sockets b !! ws = Some sock) as [sock Hs].
  { unfold can_fire, readyStateOf in Hf.
    destruct (sockets b !! ws) as [sock|]; [by exists sock | done]. }
  assert (App.step (s, b) (t1, App.Socket ws close) =
    (App.mkState (App.messages s) (App.input s) false (App.isLoading s) (App.wsRef s),
     mkBrowser (<[ws := mkSocket (url sock) CLOSED (sent sock)]> (sockets b))
       (timeouts b ++ [(Reconnect, 3000)])
       (console b ++ ["Disconnected from WebSocket"%string]) (localStorage b)))
    as ->.
  { unfold App.step. cbn [fst snd App.enabled]. rewrite Hf.
    run_app. by rewrite Hs. }
  cbv zeta. cbn [snd fst].
  unfold App.step. cbn [fst snd App.enabled timeouts].
  rewrite lookup_snoc. rewrite bool_decide_eq_true_2 by eauto.
  run_app. cbn. rewrite lookup_snoc, delete_snoc. cbn.
  rewrite length_insert. repeat split; try done.
  unfold readyStateOf. cbn. rewrite list_lookup_insert_eq; [done|].
  by eapply lookup_lt_Some.
Qed.

Lemma close_then_timer_reconnects_witness :
  readyStates (snd (App.run Example.connected
                      [(5, App.Socket 0 close); (3005, App.TimerFired 0)]))
  = [CLOSED; CONNECTING].
Proof.
  destruct (close_then_timer_reconnects Example.connected 0 5 3005) as (Hs & _);
    [reflexivity |].
  unfold readyStates. cbn [App.run fold_left].
  change (length (timeouts (snd Example.connected))) with 0%nat in Hs.
  rewrite Hs. reflexivity.
Defined.

(** ** The entries of the log *)

Lemma App_step_shown w ev :
  forallb App_entry_shown (App.messages (fst w)) = true ->
  forallb App_entry_shown (App.messages (fst (App.step w ev))) = true.
Proof.
  destruct w as [s b], ev as [now e]. cbn [fst snd]. intros H.
  unfold App.step. cbn [fst snd].
  destruct (App.enabled e (s, b)); [|done].
  destruct e as [|ws [|data| | |]|k|v|]; cbn [App.dispatch].
  - done.
  - done.
  - destruct (Json.parse data) as [d|] eqn:Hp.
    + assert (d = JsNull \/ d <> JsNull) as [->|Hn]
        by (destruct d; auto; right; discriminate).
      * by rewrite (App_onmessage_null _ _ _ Hp).
      * rewrite (App_onmessage_parsed _ _ _ _ _ Hp Hn).
        destruct (truthy (field d "response")) eqn:Ht; cbn; [|done].
        rewrite forallb_app, H. cbn. unfold App_entry_shown. cbn.
        by rewrite Ht.
    + by rewrite (App_onmessage_malformed _ _ _ Hp).
  - done.
  - run_app. by destruct (sockets b !! ws).
  - run_app. by destruct (sockets b !! ws).
  - run_app. by destruct (timeouts b !! k) as [[[] ?]|].
  - done.
  - run_app.
    destruct (is_empty (trim (App.input s))) eqn:Hi; cbn; [done|].
    destruct (negb _ || negb _); cbn; [done|].
    assert (forallb App_entry_shown
              (App.messages s ++ [App.mkMessage (JsStr (App.input s)) true now])
            = true) as Hok.
    { rewrite forallb_app, H. cbn. unfold App_entry_shown. cbn. by rewrite Hi. }
    destruct (App.wsRef s) as [r|]; cbn; [|done].
    destruct (sockets b !! r) as [sock|]; cbn; [|done].
    by destruct (readyState sock).
Qed.

(** X6: the log of [App] never holds an empty entry.  If every entry
    shows something (a user entry a string that is not blank, a reply a
    truthy value), this is still so after any sequence of events. *)
Theorem log_entries_are_shown (evs : list (N * App.Event)) (w : App.State * Browser) :
  forallb App_entry_shown (App.messages (fst w)) = true ->
  forallb App_entry_shown (App.messages (fst (App.run w evs))) = true.
Proof.
  revert w. induction evs as [|ev evs IH]; intros w H; [done|].
  cbn. apply IH. by apply App_step_shown.
Qed.

Lemma log_entries_are_shown_witness :
  forallb App_entry_shown
    (App.messages
       (fst (App.run Example.awaiting
               [(5, App.Socket 0 (message Example.envelope));
                (6, App.Socket 0 (message Example.empty_object))]))) = true.
Proof. apply (log_entries_are_shown _ Example.awaiting). reflexivity. Defined.

(** ** Durable storage *)

(** X7: the chat components never touch durable storage.  No event of
    [App] or of [ChatInterface] changes [localStorage]. *)
Theorem chat_never_touches_storage
    (w : App.State * Browser) (ev : N * App.Event)
    (c : ChatInterface.State * Browser) (cev : N * ChatInterface.Event) :
  localStorage (snd (App.step w ev)) = localStorage (snd w)
  /\ localStorage (snd (ChatInterface.step c cev)) = localStorage (snd c).
Proof.
  split.
  - destruct w as [s b], ev as [now e].
    destruct e as [|ws [|data| | |]|k|v|]; run_app;
      repeat (case_match; simplify_eq; cbn [fst snd localStorage] in *); done.
  - destruct c as [s b], cev as [now e].
    destruct e as [|ws [|data| | |]|v| |]; run_chat;
      repeat (case_match; simplify_eq; cbn [fst snd localStorage] in *); done.
Qed.

(* ===================================================================== *)
(** * More on ChatInterface *)
(* ===================================================================== *)

(** ** ChatInterface.handleSend *)

(** What [handleSend] does once its guard is passed, by the state of the
    socket. *)
Lemma Chat_handleSend_accepted now s b ws :
  is_empty (trim (ChatInterface.input s)) = false ->
  ChatInterface.socket s = Some ws ->
  ChatInterface.isLoading s = false ->
  let entry := ChatInterface.mkMessage (toString now)
                 (JsStr (ChatInterface.input s)) true (ChatInterface.DateNow now) in
  let frame := JsObj [(js "text", JsStr (ChatInterface.input s))] in
  let s' loading :=
    ChatInterface.mkState (ChatInterface.messages s ++ [entry]) [] loading (Some ws) in
  ChatInterface.handleSend now (s, b) =
    match sockets b !! ws with
    | Some sock =>
        match readyState sock with
        | CONNECTING =>
            (Normal tt,
             (s' false,
              mkBrowser (sockets b) (timeouts b)
                (console b ++ ["Error sending message:"%string]) (localStorage b)))
        | OPEN =>
            (Normal tt,
             (s' true,
              mkBrowser (<[ws := mkSocket (url sock) OPEN (sent sock ++ [frame])]> (sockets b))
                (timeouts b) (console b) (localStorage b)))
        | CLOSING | CLOSED => (Normal tt, (s' true, b))
        end
    | None => (Normal tt, (s' true, b))
    end.
Proof.
  intros Hi Hs Hl. cbv zeta. run_chat. rewrite Hi, Hs, Hl. cbn.
  destruct (sockets b !! ws) as [sock|]; cbn; [|by rewrite Hs].
  destruct (readyState sock); cbn; by rewrite Hs.
Qed.

Lemma Chat_handleSend_rejected now s b :
  is_empty (trim (ChatInterface.input s)) = true
  \/ ChatInterface.socket s = None \/ ChatInterface.isLoading s = true ->
  ChatInterface.handleSend now (s, b) = (Normal tt, (s, b)).
Proof.
  intros H. run_chat. destruct H as [-> | [-> | ->]]; [done | |].
  - by rewrite orb_true_r.
  - by rewrite orb_true_r.
Qed.

Lemma Chat_handleSend_cases now s b :
  ChatInterface.handleSend now (s, b) = (Normal tt, (s, b))
  \/ exists ws,
       is_empty (trim (ChatInterface.input s)) = false
       /\ ChatInterface.socket s = Some ws
       /\ ChatInterface.isLoading s = false.
Proof.
  destruct (is_empty (trim (ChatInterface.input s))) eqn:Hi;
    [left; apply Chat_handleSend_rejected; auto|].
  destruct (ChatInterface.socket s) as [ws|] eqn:Hs;
    [|left; apply Chat_handleSend_rejected; auto].
  destruct (ChatInterface.isLoading s) eqn:Hl;
    [left; apply Chat_handleSend_rejected; auto|].
  right. by exists ws.
Qed.

(** X8: [handleSend] and [handleKeyPress] of [ChatInterface] never throw,
    whatever the state of the socket: the [InvalidStateError] of a send on a
    socket that is still connecting is caught. *)
Theorem handleSend_never_throws
    (now : N) (key : jsstring) (shiftKey : bool) (w : ChatInterface.State * Browser) :
  fst (ChatInterface.handleSend now w) = Normal tt
  /\ fst (Chat_handleKeyPress key shiftKey now w) = Normal tt.
Proof.
  assert (fst (ChatInterface.handleSend now w) = Normal tt) as H.
  { destruct w as [s b].
    destruct (Chat_handleSend_cases now s b) as [-> | (ws & Hi & Hs & Hl)]; [done|].
    rewrite (Chat_handleSend_accepted now s b ws Hi Hs Hl).
    destruct (sockets b !! ws) as [sock|]; [|done]. by destruct (readyState sock). }
  split; [done|]. unfold Chat_handleKeyPress.
  by destruct (bool_decide _ && negb _).
Qed.

(** X9: a message sent by [ChatInterface] before its socket has opened
    is lost.  The entry is appended to the log and the input emptied, but
    the send fails: the error is logged, the loading flag is cleared again
    and the socket has been handed nothing. *)
Theorem send_before_open_is_lost
    (now : N) (s : ChatInterface.State) (b : Browser) (ws : nat) :
  is_empty (trim (ChatInterface.input s)) = false ->
  ChatInterface.socket s = Some ws ->
  ChatInterface.isLoading s = false ->
  readyStateOf b ws = Some CONNECTING ->
  let w' := snd (ChatInterface.handleSend now (s, b)) in
  ChatInterface.messages (fst w') =
    ChatInterface.messages s
    ++ [ChatInterface.mkMessage (toString now) (JsStr (ChatInterface.input s))
          true (ChatInterface.DateNow now)]
  /\ ChatInterface.input (fst w') = []
  /\ ChatInterface.isLoading (fst w') = false
  /\ sockets (snd w') = sockets b
  /\ console (snd w') = console b ++ ["Error sending message:"%string].
Proof.
  intros Hi Hs Hl Hr. cbv zeta.
  rewrite (Chat_handleSend_accepted now s b ws Hi Hs Hl).
  unfold readyStateOf in Hr.
  destruct (sockets b !! ws) as [sock|]; [|done]. cbn in Hr.
  injection Hr as ->. done.
Qed.

Lemma send_before_open_is_lost_witness :
  length (ChatInterface.messages
            (fst (snd (ChatInterface.handleSend 2 Scenario.chat_typed_early))))
  = 1%nat
  /\ sockets (snd (snd (ChatInterface.handleSend 2 Scenario.chat_typed_early)))
     = sockets (snd Scenario.chat_typed_early).
Proof.
  destruct (send_before_open_is_lost 2
              (fst Scenario.chat_typed_early) (snd Scenario.chat_typed_early) 0)
    as (Hm & _ & _ & Hs & _); try reflexivity.
  split; [|exact Hs].
  change (fst Scenario.chat_typed_early, snd Scenario.chat_typed_early)
    with Scenario.chat_typed_early in Hm.
  rewrite Hm. reflexivity.
Defined.

(** ** One request at a time (ChatInterface) *)

Lemma sum_list_with_insert {A} (f : A -> nat) (l : list A) i x y :
  l !! i = Some x ->
  (sum_list_with f (<[i := y]> l) + f x = sum_list_with f l + f y)%nat.
Proof.
  revert i. induction l as [|z l IH]; intros [|i] H; simplify_eq/=; [lia|].
  specialize (IH _ H). lia.
Qed.

Lemma frames_sent_insert b ws sock sock' t c l :
  sockets b !! ws = Some sock ->
  (frames_sent (mkBrowser (<[ws := sock']> (sockets b)) t c l) + length (sent sock)
   = frames_sent b + length (sent sock'))%nat.
Proof.
  intros H. unfold frames_sent. cbn.
  apply (sum_list_with_insert (fun s => length (sent s))). done.
Qed.

Lemma Chat_onmessage_null now frame w :
  Json.parse frame = Some JsNull ->
  ChatInterface.onmessage now frame w = (Throw TypeError, w).
Proof. intros H. run_chat. by rewrite H. Qed.

Lemma Chat_step_budget w ev n :
  (frames_sent (snd w) <= n + slack w)%nat ->
  (frames_sent (snd (ChatInterface.step w ev))
   <= n + (if is_answer ev then 1 else 0) + slack (ChatInterface.step w ev))%nat.
Proof.
  destruct w as [s b], ev as [now e]. unfold slack, is_answer. cbn [fst snd].
  intros H.
  assert (frames_sent b <= n + 1)%nat as H1
    by (destruct (ChatInterface.isLoading s); lia).
  unfold ChatInterface.step. cbn [fst snd].
  destruct (ChatInterface.enabled e (s, b)) eqn:He;
    [|cbn [fst snd]; destruct (ChatInterface.isLoading s);
      destruct e as [|? [| | | |]| | |]; lia].
  destruct e as [|ws [|data| | |]|v| |]; cbn [ChatInterface.dispatch].
  - (* Mount *)
    run_chat. unfold frames_sent in *. cbn. rewrite sum_list_with_app.
    cbn. destruct (ChatInterface.isLoading s); lia.
  - (* open *)
    run_chat. cbn.
    destruct (sockets b !! ws) as [sock|] eqn:Hs;
      [|unfold frames_sent in *; cbn; destruct (ChatInterface.isLoading s); lia].
    pose proof (frames_sent_insert b ws sock (mkSocket (url sock) OPEN (sent sock))
                  (timeouts b) (console b ++ ["Connected to WebSocket server"%string])
                  (localStorage b) Hs) as E.
    cbn in E. destruct (ChatInterface.isLoading s); lia.
  - (* message *)
    destruct (Json.parse data) as [d|] eqn:Hp.
    + assert (d = JsNull \/ d <> JsNull) as [->|Hn]
        by (destruct d; auto; right; discriminate).
      * rewrite (Chat_onmessage_null _ _ _ Hp). cbn.
        destruct (ChatInterface.isLoading s); lia.
      * rewrite (Chat_onmessage_parsed _ _ _ _ _ Hp Hn). cbn. lia.
    + rewrite (Chat_onmessage_malformed _ _ _ Hp). cbn.
      destruct (ChatInterface.isLoading s); lia.
  - (* error *)
    run_chat. cbn. unfold frames_sent in *. cbn. lia.
  - (* close *)
    run_chat. cbn.
    destruct (sockets b !! ws) as [sock|] eqn:Hs;
      [|unfold frames_sent in *; cbn; destruct (ChatInterface.isLoading s); lia].
    pose proof (frames_sent_insert b ws sock (mkSocket (url sock) CLOSED (sent sock))
                  (timeouts b) (console b ++ ["Disconnected from WebSocket server"%string])
                  (localStorage b) Hs) as E.
    cbn in E. destruct (ChatInterface.isLoading s); lia.
  - (* the closing handshake starts *)
    run_chat. cbn.
    destruct (sockets b !! ws) as [sock|] eqn:Hs;
      [|unfold frames_sent in *; cbn; destruct (ChatInterface.isLoading s); lia].
    pose proof (frames_sent_insert b ws sock (mkSocket (url sock) CLOSING (sent sock))
                  (timeouts b) (console b) (localStorage b) Hs) as E.
    cbn in E. destruct (ChatInterface.isLoading s); lia.
  - (* Change *)
    cbn. destruct (ChatInterface.isLoading s); lia.
  - (* Send *)
    destruct (Chat_handleSend_cases now s b) as [-> | (ws & Hi & Hs & Hl)];
      [cbn; destruct (ChatInterface.isLoading s); lia|].
    rewrite (Chat_handleSend_accepted now s b ws Hi Hs Hl).
    rewrite Hl in H.
    destruct (sockets b !! ws) as [sock|] eqn:Hsock; [|cbn; lia].
    destruct (readyState sock); cbn; try lia.
    + unfold frames_sent in *. cbn. lia.
    + pose proof (frames_sent_insert b ws sock
                    (mkSocket (url sock) OPEN
                       (sent sock ++ [JsObj [(js "text", JsStr (ChatInterface.input s))]]))
                    (timeouts b) (console b) (localStorage b) Hsock) as E.
      cbn in E. rewrite length_app in E. cbn in E. lia.
  - (* ClearChat *)
    cbn. destruct (ChatInterface.isLoading s); lia.
Qed.

Lemma Chat_run_budget evs w n :
  (frames_sent (snd w) <= n + slack w)%nat ->
  (frames_sent (snd (ChatInterface.run w evs))
   <= n + answers evs + slack (ChatInterface.run w evs))%nat.
Proof.
  revert w n. induction evs as [|ev evs IH]; intros w n H.
  - cbn. unfold answers. cbn. lia.
  - cbn [ChatInterface.run fold_left].
    apply (Chat_step_budget w ev) in H.
    apply IH in H. unfold ChatInterface.run in H.
    unfold answers in *. cbn [List.filter].
    destruct (is_answer ev); cbn [length]; lia.
Qed.

(** X10: [ChatInterface] has one request in flight at most.  After any
    sequence of events, the number of frames handed to the socket is at most
    the number of [message] and [error] events, plus one while a reply is
    awaited. *)
Theorem one_request_at_a_time (evs : list (N * ChatInterface.Event)) :
  let w := ChatInterface.run (ChatInterface.initial, emptyBrowser) evs in
  (frames_sent (snd w)
   <= answers evs + (if ChatInterface.isLoading (fst w) then 1 else 0))%nat.
Proof.
  cbv zeta. pose proof (Chat_run_budget evs (ChatInterface.initial, emptyBrowser) 0) as H.
  apply H. cbn. lia.
Qed.

(** ** A frame without the expected key *)

Lemma field_missing d key :
  (forall props, d = JsObj props -> own_property (js key) props = None) ->
  field d key = JsUndefined.
Proof.
  intros H. unfold field. destruct d; cbn; try done.
  by rewrite (H _ eq_refl).
Qed.

(** X11: a well-formed frame without the expected key.  If the JSON value
    is not [null] and has neither a [response] nor a [message] of its own
    (an empty object, a number, an array), [App] appends nothing, while
    [ChatInterface] appends an entry whose content is [undefined]. *)
Theorem frame_without_key
    (frame : jsstring) (d : JsValue) (now : N)
    (w : App.State * Browser) (c : ChatInterface.State * Browser) :
  Json.parse frame = Some d -> d <> JsNull ->
  (forall props, d = JsObj props ->
     own_property (js "response") props = None
     /\ own_property (js "message") props = None) ->
  App.messages (fst (snd (App.onmessage now frame w))) = App.messages (fst w)
  /\ ChatInterface.messages (fst (snd (ChatInterface.onmessage now frame c))) =
     ChatInterface.messages (fst c)
     ++ [ChatInterface.mkMessage (toString now) JsUndefined false
           (ChatInterface.DateOf (field d "timestamp"))].
Proof.
  intros Hp Hn Hk. destruct w as [s b], c as [cs cb].
  rewrite (App_onmessage_parsed _ _ _ _ _ Hp Hn).
  rewrite (Chat_onmessage_parsed _ _ _ _ _ Hp Hn).
  rewrite (field_missing d "response") by (intros; by apply Hk).
  rewrite (field_missing d "message") by (intros; by apply Hk).
  done.
Qed.

Lemma frame_without_key_witness :
  App.messages (fst (snd (App.onmessage 5 Example.empty_object Example.connected)))
    = App.messages (fst Example.connected)
  /\ ChatInterface.messages
       (fst (snd (ChatInterface.onmessage 5 Example.empty_object Example.chat_connected)))
     = ChatInterface.messages (fst Example.chat_connected)
       ++ [ChatInterface.mkMessage (toString 5) JsUndefined false
             (ChatInterface.DateOf (field (JsObj []) "timestamp"))].
Proof.
  apply (frame_without_key Example.empty_object (JsObj []) 5 Example.connected
           Example.chat_connected).
  - vm_compute. reflexivity.
  - discriminate.
  - intros props H. injection H as <-. split; reflexivity.
Defined.

(** ** The ids of the entries (ChatInterface) *)

(** X14: ids are not unique.  A reply that [ChatInterface] receives in the
    millisecond in which the message was sent gets the id of the sent
    entry. *)
Theorem same_millisecond_same_id
    (now : N) (frame : jsstring) (d : JsValue)
    (s : ChatInterface.State) (b : Browser) (ws : nat) :
  is_empty (trim (ChatInterface.input s)) = false ->
  ChatInterface.socket s = Some ws ->
  ChatInterface.isLoading s = false ->
  Json.parse frame = Some d -> d <> JsNull ->
  let w1 := snd (ChatInterface.handleSend now (s, b)) in
  let w2 := snd (ChatInterface.onmessage now frame w1) in
  exists sent_entry reply,
    ChatInterface.messages (fst w2) =
      ChatInterface.messages s ++ [sent_entry; reply]
    /\ ChatInterface.isUser sent_entry = true
    /\ ChatInterface.isUser reply = false
    /\ ChatInterface.id sent_entry = ChatInterface.id reply.
Proof.
  intros Hi Hs Hl Hp Hn. cbv zeta.
  rewrite (Chat_handleSend_accepted now s b ws Hi Hs Hl).
  destruct (sockets b !! ws) as [sock|]; [destruct (readyState sock)|];
    cbn [snd]; rewrite (Chat_onmessage_parsed _ _ _ _ _ Hp Hn); cbn;
    eexists _, _; rewrite <- app_assoc; cbn; repeat split; reflexivity.
Qed.

Lemma same_millisecond_same_id_witness :
  exists sent_entry reply,
    ChatInterface.messages
      (fst (snd (ChatInterface.onmessage 3 Example.envelope
                   (snd (ChatInterface.handleSend 3 Scenario.chat_typed)))))
    = ChatInterface.messages (fst Scenario.chat_typed) ++ [sent_entry; reply]
    /\ ChatInterface.isUser sent_entry = true
    /\ ChatInterface.isUser reply = false
    /\ ChatInterface.id sent_entry = ChatInterface.id reply.
Proof.
  eapply (same_millisecond_same_id 3 Example.envelope _
            (fst Scenario.chat_typed) (snd Scenario.chat_typed) 0);
    [reflexivity | reflexivity | reflexivity | exact envelope_parsed
    | discriminate].
Defined.

(** ** The loading flag *)

(** X15: in [App], only a received frame ends the wait for a reply.  If
    the loading flag is set before an event and cleared after it, the event
    is a frame on an open socket that parses to a JSON value other than
    [null]; an error, a close or a reconnection leaves the flag set. *)
Theorem loading_cleared_only_by_frame
    (w : App.State * Browser) (now : N) (e : App.Event) :
  App.isLoading (fst w) = true ->
  App.isLoading (fst (App.step w (now, e))) = false ->
  exists ws frame d,
    e = App.Socket ws (message frame)
    /\ readyStateOf (snd w) ws = Some OPEN
    /\ Json.parse frame = Some d /\ d <> JsNull.
Proof.
  destruct w as [s b]. cbn [fst snd]. intros Hl.
  unfold App.step. cbn [fst snd].
  destruct (App.enabled e (s, b)) eqn:He; cbn [fst]; [|congruence].
  destruct e as [|ws [|data| | |]|k|v|]; cbn [App.dispatch].
  - run_app. cbn. congruence.
  - run_app. cbn. congruence.
  - intros H. exists ws, data.
    cbn in He. unfold can_fire in He.
    destruct (readyStateOf b ws) as [[]|] eqn:Hr; try done.
    destruct (Json.parse data) as [d|] eqn:Hp.
    + assert (d = JsNull \/ d <> JsNull) as [->|Hn]
        by (destruct d; auto; right; discriminate).
      * rewrite (App_onmessage_null _ _ _ Hp) in H. cbn in H. congruence.
      * by exists d.
    + rewrite (App_onmessage_malformed _ _ _ Hp) in H. cbn in H. congruence.
  - run_app. cbn. congruence.
  - run_app. cbn. congruence.
  - run_app. cbn. congruence.
  - run_app. cbn. destruct (timeouts b !! k) as [[[] ?]|]; cbn; congruence.
  - run_app. cbn. congruence.
  - run_app. cbn.
    destruct (is_empty _ || _ || _); cbn; [congruence|].
    destruct (App.wsRef s) as [r|]; cbn; [|congruence].
    destruct (sockets b !! r) as [sock|]; cbn; [|discriminate].
    destruct (readyState sock); cbn; congruence.
Qed.

Lemma loading_cleared_only_by_frame_witness :
  exists ws frame d,
    App.Socket 0 (message Example.envelope) = App.Socket ws (message frame)
    /\ readyStateOf (snd Example.awaiting) ws = Some OPEN
    /\ Json.parse frame = Some d /\ d <> JsNull.
Proof.
  apply (loading_cleared_only_by_frame Example.awaiting 5
           (App.Socket 0 (message Example.envelope))); reflexivity.
Defined.

(** ** ChatInterface does not reconnect *)

Lemma closed_cannot_fire b ws e :
  Forall (fun s => readyState s = CLOSED) (sockets b) -> can_fire b ws e = false.
Proof.
  intros H. unfold can_fire, readyStateOf.
  destruct (sockets b !! ws) as [sock|] eqn:Hs; cbn; [|by destruct e].
  rewrite Forall_forall in H. rewrite (H sock); [by destruct e|].
  by eapply list_elem_of_lookup_2.
Qed.

Lemma hung_step w ev :
  hung w ->
  hung (ChatInterface.step w ev)
  /\ snd (ChatInterface.step w ev) = snd w
  /\ (ChatInterface.messages (fst (ChatInterface.step w ev))
        = ChatInterface.messages (fst w)
      \/ ChatInterface.messages (fst (ChatInterface.step w ev)) = []).
Proof.
  destruct w as [s b], ev as [now e]. unfold hung. cbn [fst snd].
  intros (Hs & Hc & Hl).
  unfold ChatInterface.step. cbn [fst snd].
  destruct e as [|ws ev|v| |]; cbn [ChatInterface.enabled ChatInterface.dispatch].
  - rewrite bool_decide_eq_false_2 by done. auto.
  - rewrite (closed_cannot_fire _ _ _ Hc). auto.
  - cbn. auto.
  - rewrite Chat_handleSend_rejected by auto. auto.
  - cbn. auto.
Qed.

(** X16: [ChatInterface] does not recover from a closed socket.  Once its
    socket is closed while a reply is awaited, no sequence of events clears
    the loading flag, opens a socket or sends a frame; the log can only be
    cleared. *)
Theorem closed_socket_hangs (w : ChatInterface.State * Browser)
    (evs : list (N * ChatInterface.Event)) :
  ChatInterface.socket (fst w) <> None ->
  Forall (fun s => readyState s = CLOSED) (sockets (snd w)) ->
  ChatInterface.isLoading (fst w) = true ->
  let w' := ChatInterface.run w evs in
  ChatInterface.isLoading (fst w') = true
  /\ snd w' = snd w
  /\ (ChatInterface.messages (fst w') = ChatInterface.messages (fst w)
      \/ ChatInterface.messages (fst w') = []).
Proof.
  intros Hs Hc Hl. cbv zeta.
  assert (hung w) as H by done. clear Hs Hc Hl.
  revert w H. induction evs as [|ev evs IH]; intros w H.
  - cbn. destruct H as (_ & _ & ?). auto.
  - cbn [ChatInterface.run fold_left].
    destruct (hung_step w ev H) as (H' & Hb & Hm).
    destruct (IH _ H') as (? & Hb' & Hm'). unfold ChatInterface.run in *.
    split; [done|]. split; [congruence|].
    destruct Hm' as [-> | ->]; auto.
Qed.

Lemma closed_socket_hangs_witness :
  ChatInterface.isLoading
    (fst (ChatInterface.run Scenario.sent_after_close
            [(5, ChatInterface.Socket 0 (message Example.envelope));
             (6, ChatInterface.Socket 0 error);
             (7, ChatInterface.Change (js "again")); (8, ChatInterface.Send)]))
  = true.
Proof.
  apply (closed_socket_hangs Scenario.sent_after_close).
  - discriminate.
  - repeat constructor.
  - reflexivity.
Defined.

Lemma single_socket_step w ev : single_socket w -> single_socket (ChatInterface.step w ev).
Proof.
  destruct w as [s b], ev as [now e]. unfold single_socket. cbn [fst snd].
  intros (Ht & Hs).
  unfold ChatInterface.step. cbn [fst snd].
  destruct (ChatInterface.enabled e (s, b)) eqn:He; [|done].
  destruct e as [|ws [|data| | |]|v| |]; cbn [ChatInterface.dispatch].
  - cbn in He. apply bool_decide_eq_true in He. rewrite He in Hs.
    run_chat. cbn. by rewrite Hs.
  - run_chat. cbn. split; [done|].
    destruct (sockets b !! ws); [|done].
    destruct (ChatInterface.socket s); [|by rewrite Hs]. by rewrite length_insert.
  - destruct (Json.parse data) as [d|] eqn:Hp.
    + assert (d = JsNull \/ d <> JsNull) as [->|Hn]
        by (destruct d; auto; right; discriminate).
      * by rewrite (Chat_onmessage_null _ _ _ Hp).
      * by rewrite (Chat_onmessage_parsed _ _ _ _ _ Hp Hn).
    + by rewrite (Chat_onmessage_malformed _ _ _ Hp).
  - done.
  - run_chat. cbn. split; [done|].
    destruct (sockets b !! ws); [|done].
    destruct (ChatInterface.socket s); [|by rewrite Hs]. by rewrite length_insert.
  - run_chat. cbn. split; [done|].
    destruct (sockets b !! ws); [|done].
    destruct (ChatInterface.socket s); [|by rewrite Hs]. by rewrite length_insert.
  - done.
  - destruct (Chat_handleSend_cases now s b) as [-> | (ws & Hi & Hsock & Hl)];
      [done|].
    rewrite (Chat_handleSend_accepted now s b ws Hi Hsock Hl).
    rewrite Hsock in Hs.
    destruct (sockets b !! ws) as [sock|]; [|done].
    destruct (readyState sock); cbn; try done.
    by rewrite length_insert.
  - done.
Qed.

(** X17: [ChatInterface] never reconnects.  After any sequence of events
    it has created one socket at most, the one of its first render, and has
    no timer pending: a closed socket is not replaced. *)
Theorem chat_never_reconnects (evs : list (N * ChatInterface.Event)) :
  let w := ChatInterface.run (ChatInterface.initial, emptyBrowser) evs in
  (length (sockets (snd w)) <= 1)%nat /\ timeouts (snd w) = [].
Proof.
  cbv zeta.
  assert (single_socket (ChatInterface.run (ChatInterface.initial, emptyBrowser) evs))
    as (Ht & Hs).
  { generalize (ChatInterface.initial, emptyBrowser),
      (conj eq_refl eq_refl : single_socket (ChatInterface.initial, emptyBrowser)).
    induction evs as [|ev evs IH]; intros w H; [done|].
    cbn. apply IH. by apply single_socket_step. }
  split; [|done].
  destruct (ChatInterface.socket _); [lia | rewrite Hs; cbn; lia].
Qed.
